(** * State-based load profile generation: the simulated energy systems

    A shallow embedding of [simulation/systems]: [actions.py], [system.py],
    [battery.py], [combined_heat_and_power_plant.py] and [heat_storage.py].

    Conventions of the embedding.
    - Python numbers are exact rationals ([Q]); the one non-finite value the
      systems are configured with, [float('inf')] as a staying-time limit,
      is the constructor [Inf] of [value].
    - A method is a computation [M S A] over the object [S] it is called on:
      it either returns a value or raises, and in both cases leaves a state
      behind, so that what a failing call has already written is visible.
    - A [dict] is an insertion-ordered association list. *)

From Stdlib Require Import QArith Qround Qminmax ZArith List String Bool.
From Stdlib Require Import Lia Lra Psatz Sorted Permutation.
Import ListNotations.

Open Scope Q_scope.

(* ================================================================== *)
(** ** Python numbers *)

Module Py.

(** [a < b] as evaluated by the interpreter. *)
Definition Qlt_bool (a b : Q) : bool := negb (Qle_bool b a).

(** [max(a, b)]: the first argument unless the second is greater. *)
Definition max (a b : Q) : Q := if Qlt_bool a b then b else a.

(** [min(a, b)]: the first argument unless the second is smaller. *)
Definition min (a b : Q) : Q := if Qlt_bool b a then b else a.

(** Attribute values: a finite number or [float('inf')]. *)
Inductive value : Type :=
| Num (q : Q)
| Inf.

Definition value_le_bool (a b : value) : bool :=
  match a, b with
  | Num x, Num y => Qle_bool x y
  | _, Inf => true
  | Inf, Num _ => false
  end.

Definition value_lt_bool (a b : value) : bool := negb (value_le_bool b a).

(** [range(lo, hi)] *)
Definition range (lo hi : Z) : list Z :=
  List.map (fun k => (lo + Z.of_nat k)%Z) (seq 0 (Z.to_nat (hi - lo))).

(** [round(x, d)] for [d >= 0]: to the nearest multiple of [10^-d],
    ties to the even one. *)
Definition round_half_even (y : Q) : Z :=
  let f := Qfloor y in
  match Qcompare (y - inject_Z f) (1 # 2) with
  | Lt => f
  | Gt => (f + 1)%Z
  | Eq => if Z.even f then f else (f + 1)%Z
  end.

Definition pow10 (d : nat) : Q := inject_Z (10 ^ Z.of_nat d).

Definition round (x : Q) (d : nat) : Q :=
  inject_Z (round_half_even (x * pow10 d)) / pow10 d.

(** The least [d >= k] with [x <= 10^d], looking at most [fuel] steps
    ahead.  With [k = 0] and [fuel >= x] this is
    [max(0, ceil(log10 x))], as [10^d > d]. *)
Fixpoint least_pow10 (fuel : nat) (k : nat) (x : Q) : nat :=
  match fuel with
  | O => k
  | S fuel' => if Qle_bool x (pow10 k) then k else least_pow10 fuel' (S k) x
  end.

End Py.

(* ================================================================== *)
(** ** Exceptions and the method monad *)

Inductive exn : Type :=
| KeyError
| ValueError
| ZeroDivisionError
| AttributeError.

Inductive outcome (S A : Type) : Type :=
| Returned (a : A) (s : S)
| Raised (e : exn) (s : S).
Arguments Returned {S A} a s.
Arguments Raised {S A} e s.

Definition M (S A : Type) : Type := S -> outcome S A.

Definition ret {S A} (a : A) : M S A := fun s => Returned a s.

Definition bind {S A B} (m : M S A) (k : A -> M S B) : M S B :=
  fun s =>
    match m s with
    | Returned a s' => k a s'
    | Raised e s' => Raised e s'
    end.

Definition raise {S A} (e : exn) : M S A := fun s => Raised e s.
Definition get {S} : M S S := fun s => Returned s s.
Definition put {S} (s : S) : M S unit := fun _ => Returned tt s.

Declare Scope method_scope.
Delimit Scope method_scope with method.
Notation "x <- m ;; k" := (bind m (fun x => k))
  (at level 61, m at next level, right associativity) : method_scope.
Notation "m ;;; k" := (bind m (fun _ => k))
  (at level 61, right associativity) : method_scope.
Open Scope method_scope.

(** The state a call leaves behind, whether it returned or raised. *)
Definition final_state {S A} (o : outcome S A) : S :=
  match o with
  | Returned _ s => s
  | Raised _ s => s
  end.

Definition returned {S A} (o : outcome S A) : option A :=
  match o with
  | Returned a _ => Some a
  | Raised _ _ => None
  end.

Definition raised {S A} (o : outcome S A) : option exn :=
  match o with
  | Returned _ _ => None
  | Raised e _ => Some e
  end.

(** [x / y] on numbers: raises when the divisor is zero. *)
Definition div {S} (x y : Q) : M S Q :=
  if Qeq_bool y 0 then raise ZeroDivisionError else ret (x / y).

(** [for x in xs: body(x)] *)
Fixpoint for_each {S X} (xs : list X) (body : X -> M S unit) : M S unit :=
  match xs with
  | [] => ret tt
  | x :: xs' => body x ;;; for_each xs' body
  end.

(* ================================================================== *)
(** ** Dictionaries keyed by action index *)

Module Dict.

Definition t (V : Type) : Type := list (Z * V).

Definition empty {V} : t V := [].

Fixpoint lookup {V} (d : t V) (k : Z) : option V :=
  match d with
  | [] => None
  | (k', v) :: d' => if (k =? k')%Z then Some v else lookup d' k
  end.

Definition mem {V} (d : t V) (k : Z) : bool :=
  match lookup d k with Some _ => true | None => false end.

(** [d[k] = v]: an existing key keeps its position, a new one is
    appended. *)
Fixpoint set {V} (d : t V) (k : Z) (v : V) : t V :=
  match d with
  | [] => [(k, v)]
  | (k', v') :: d' =>
      if (k =? k')%Z then (k', v) :: d' else (k', v') :: set d' k v
  end.

Definition keys {V} (d : t V) : list Z := List.map fst d.

Definition len {V} (d : t V) : Z := Z.of_nat (List.length d).

(** [d[k]] as an expression: [KeyError] on a missing key. *)
Definition getitem {S V} (d : t V) (k : Z) : M S V :=
  match lookup d k with
  | Some v => ret v
  | None => raise KeyError
  end.

(** [d[k]] where [k] may be [None]: the keys are integers, so [None] is
    never among them. *)
Definition getitem_obj {S V} (d : t V) (k : option Z) : M S V :=
  match k with
  | Some i => getitem d i
  | None => raise KeyError
  end.

End Dict.

(* ================================================================== *)
(** ** actions.py *)

Module Action.

(** [Action(idx, el_power=0, th_power=0, **kwargs)]; [extra] holds the
    keyword attributes. *)
Record t : Type := make {
  idx : Z;
  el_power : Q;
  th_power : Q;
  extra : list (string * Py.value)
}.

Fixpoint assoc (kw : list (string * Py.value)) (name : string)
  : option Py.value :=
  match kw with
  | [] => None
  | (n, v) :: kw' => if String.eqb name n then Some v else assoc kw' name
  end.

(** [action.name] for a keyword attribute. *)
Definition getattr {S} (a : t) (name : string) : M S Py.value :=
  match assoc (extra a) name with
  | Some v => ret v
  | None => raise AttributeError
  end.

End Action.

(* ================================================================== *)
(** ** system.py *)

Module Interaction.

(** [SystemEnvironmentInteraction(power_el=0, power_th=0, **kwargs)] *)
Record t : Type := make {
  el_power : Q;
  th_power : Q;
  extra : list (string * Py.value)
}.

Definition new (power_el power_th : Q) : t := make power_el power_th [].

(** [__mul__(self, other)], also bound to [__rmul__]: both powers of
    [self] are scaled in place; the body has no [return], so the call
    evaluates to [None]. *)
Definition mul (other : Q) : M t (option t) :=
  self <- get ;;
  put (make (el_power self * other) (th_power self) (extra self)) ;;;
  self <- get ;;
  put (make (el_power self) (th_power self * other) (extra self)) ;;;
  ret None.

Definition rmul : Q -> M t (option t) := mul.

End Interaction.

Module AbstractSystem.

(** The base class owns the catalog [self.actions]. *)
Definition add_action (action : Action.t) : M (Dict.t Action.t) unit :=
  actions <- get ;;
  if Dict.mem actions (Action.idx action)
  then raise ValueError
  else put (Dict.set actions (Action.idx action) action).

Definition get_actions : M (Dict.t Action.t) (Dict.t Action.t) := get.

(** [{idx: self.actions[idx] for idx in idxs}] *)
Fixpoint comprehension (acc : Dict.t Action.t) (idxs : list Z)
  : M (Dict.t Action.t) (Dict.t Action.t) :=
  match idxs with
  | [] => ret acc
  | i :: idxs' =>
      actions <- get ;;
      a <- Dict.getitem actions i ;;
      comprehension (Dict.set acc i a) idxs'
  end.

Definition get_actions_by_idxs (idxs : list Z)
  : M (Dict.t Action.t) (Dict.t Action.t) :=
  comprehension Dict.empty idxs.

(** The default [filter_actions]: no filtering. *)
Definition filter_actions {S} (action_map : Dict.t Action.t)
  : M S (Dict.t Action.t) := ret action_map.

End AbstractSystem.

(* ================================================================== *)
(** ** battery.py *)

Module Battery.

Record t : Type := make {
  actions : Dict.t Action.t;
  capacity : Q;                  (* Ws *)
  charging_efficiency : Q;
  discharging_efficiency : Q;
  relative_loss_per_tick : Q;
  absolute_loss_per_tick : Q;
  charge : Q                     (* Ws *)
}.

Definition with_charge (self : t) (c : Q) : t :=
  make (actions self) (capacity self) (charging_efficiency self)
       (discharging_efficiency self) (relative_loss_per_tick self)
       (absolute_loss_per_tick self) c.

(** [max(0, math.ceil(math.log(granularity,10) - math.log(max_power,10)))].
    [math.log] raises [ValueError] outside the positive numbers; on them
    the logarithm is the exact one, so the result is the least [d >= 0]
    with [granularity / max_power <= 10^d]. *)
Definition decimals {S} (granularity : Z) (max_power : Q) : M S nat :=
  if (granularity <=? 0)%Z then raise ValueError
  else if Qle_bool max_power 0 then raise ValueError
  else
    let x := inject_Z granularity / max_power in
    ret (Py.least_pow10 (Z.to_nat (Qceiling x)) 0 x).

(** The body of the loop of [__init__] for one [i]: the discharging
    level at idx [i] and the charging level at idx
    [granularity + 1 + i]. *)
Definition add_levels (max_power : Q) (granularity : Z) (decimals : nat)
    (i : Z) : M (Dict.t Action.t) unit :=
  lo <- div (inject_Z i) (inject_Z granularity) ;;
  AbstractSystem.add_action
    (Action.make i (Py.round (max_power * (lo - 1)) decimals) 0 []) ;;;
  hi <- div (inject_Z (i + 1)) (inject_Z granularity) ;;
  AbstractSystem.add_action
    (Action.make (granularity + 1 + i)
                 (Py.round (max_power * hi) decimals) 0 []).

(** The catalog built by [__init__]: idle at idx [granularity], then
    the levels for [i] in [range(0, granularity)]. *)
Definition build_actions (max_power : Q) (granularity : Z)
  : M (Dict.t Action.t) unit :=
  decimals <- decimals granularity max_power ;;
  AbstractSystem.add_action (Action.make granularity 0 0 []) ;;;
  for_each (Py.range 0 granularity)
           (add_levels max_power granularity decimals).

(** [Battery(capacity, max_power, granularity, initial_charge,
    charging_efficiency, discharging_efficiency, relative_loss,
    absolute_loss)]: the new object, or the exception raised while the
    catalog is built. *)
Definition init (capacity max_power : Q) (granularity : Z)
    (initial_charge charging_efficiency discharging_efficiency
     relative_loss absolute_loss : Q) : exn + t :=
  match build_actions max_power granularity Dict.empty with
  | Raised e _ => inl e
  | Returned _ acts =>
      inr (make acts (capacity * 1000 * 60 * 60)
                charging_efficiency discharging_efficiency
                relative_loss absolute_loss
                (initial_charge * 1000 * 60 * 60))
  end.

Definition set_state (charge_kwh : Q) : M t unit :=
  self <- get ;;
  put (with_charge self (charge_kwh * 1000 * 60 * 60)).

Definition get_state_of_charge : M t Q :=
  self <- get ;;
  div (charge self) (capacity self).

(** The loop of [get_feasible_action_idxs] over [range(0, len(actions))];
    [acc] is [feasible_action_idxs]. *)
Fixpoint feasible_loop (idxs : list Z) (max_power min_power : Q)
    (acc : list Z) : M t (list Z) :=
  match idxs with
  | [] => ret acc
  | idx :: idxs' =>
      self <- get ;;
      a <- Dict.getitem (actions self) idx ;;
      if Qle_bool (Action.el_power a * 1000) max_power
         && Qle_bool min_power (Action.el_power a * 1000)
      then feasible_loop idxs' max_power min_power (acc ++ [idx])
      else feasible_loop idxs' max_power min_power acc
  end.

Definition get_feasible_action_idxs (delta_time : Q) : M t (list Z) :=
  self <- get ;;
  let max_power :=
    capacity self * (1 + relative_loss_per_tick self / 2)
    - charge self * (1 - relative_loss_per_tick self / 2)
    + absolute_loss_per_tick self in
  max_power <- div max_power (charging_efficiency self) ;;
  max_power <- div max_power delta_time ;;
  let min_power :=
    0 - charge self * (1 - relative_loss_per_tick self / 2)
    + absolute_loss_per_tick self in
  min_power <- div (min_power * discharging_efficiency self) delta_time ;;
  feasible_loop (Py.range 0 (Dict.len (actions self)))
                max_power min_power [].

Definition state_transition (delta_time : Q) (action_idx : option Z)
    (environment_interaction : option Interaction.t)
  : M t Interaction.t :=
  self <- get ;;
  power <- match action_idx with
           | None => ret 0
           | Some i =>
               a <- Dict.getitem (actions self) i ;;
               ret (Action.el_power a * 1000)
           end ;;
  delta_c <- (if Py.Qlt_bool 0 power
              then ret (power * delta_time * charging_efficiency self)
              else if Py.Qlt_bool power 0
              then div (power * delta_time) (discharging_efficiency self)
              else ret 0) ;;
  new_charge <- div (delta_c
                     + charge self * (1 - relative_loss_per_tick self / 2)
                     - absolute_loss_per_tick self)
                    (1 + relative_loss_per_tick self / 2) ;;
  put (with_charge self new_charge) ;;;
  self <- get ;;
  a <- Dict.getitem_obj (actions self) action_idx ;;
  ret (Interaction.new (Action.el_power a) (Action.th_power a)).

End Battery.

(* ================================================================== *)
(** ** combined_heat_and_power_plant.py *)

Module CHPPlant.

Record t : Type := make {
  actions : Dict.t Action.t;
  mode : Z;
  staying_time : Q;
  el_power : Q;
  th_power : Q;
  el_ramp_up_rate : Q;           (* stored negated *)
  el_ramp_down_rate : Q;
  th_ramp_up_rate : Q;           (* stored negated *)
  th_ramp_down_rate : Q
}.

Definition with_mode (self : t) (m : Z) : t :=
  make (actions self) m (staying_time self) (el_power self) (th_power self)
       (el_ramp_up_rate self) (el_ramp_down_rate self)
       (th_ramp_up_rate self) (th_ramp_down_rate self).

Definition with_staying_time (self : t) (x : Q) : t :=
  make (actions self) (mode self) x (el_power self) (th_power self)
       (el_ramp_up_rate self) (el_ramp_down_rate self)
       (th_ramp_up_rate self) (th_ramp_down_rate self).

Definition with_el_power (self : t) (x : Q) : t :=
  make (actions self) (mode self) (staying_time self) x (th_power self)
       (el_ramp_up_rate self) (el_ramp_down_rate self)
       (th_ramp_up_rate self) (th_ramp_down_rate self).

Definition with_th_power (self : t) (x : Q) : t :=
  make (actions self) (mode self) (staying_time self) (el_power self) x
       (el_ramp_up_rate self) (el_ramp_down_rate self)
       (th_ramp_up_rate self) (th_ramp_down_rate self).

(** [self.x = e] for the four attributes a tick writes. *)
Definition set_mode (m : Z) : M t unit :=
  self <- get ;; put (with_mode self m).
Definition set_staying_time (x : Q) : M t unit :=
  self <- get ;; put (with_staying_time self x).
Definition set_el_power (x : Q) : M t unit :=
  self <- get ;; put (with_el_power self x).
Definition set_th_power (x : Q) : M t unit :=
  self <- get ;; put (with_th_power self x).

(** [self.actions[self.mode]] *)
Definition current_action : M t Action.t :=
  self <- get ;; Dict.getitem (actions self) (mode self).

(** [CHPPlant(actions, initial_mode, initial_staying_time,
    el_ramp_up_rate, el_ramp_down_rate, th_ramp_up_rate,
    th_ramp_down_rate)] *)
Definition init (acts : Dict.t Action.t) (initial_mode : Z)
    (initial_staying_time el_up el_down th_up th_down : Q) : exn + t :=
  match Dict.lookup acts initial_mode with
  | None => inl KeyError
  | Some a =>
      inr (make acts initial_mode initial_staying_time
                (Action.el_power a) (Action.th_power a)
                (- el_up) el_down (- th_up) th_down)
  end.

(** [mode] is an integer here, so the [isinstance] test passes. *)
Definition set_state (m : Z) (st : Q) : M t unit :=
  set_mode m ;;;
  set_staying_time st ;;;
  a <- current_action ;;
  set_el_power (Action.el_power a) ;;;
  a <- current_action ;;
  set_th_power (Action.th_power a).

(** The loop of [get_feasible_action_idxs] over the catalog's keys. *)
Fixpoint feasible_loop (idxs : list Z) (delta_time : Q) (acc : list Z)
  : M t (list Z) :=
  match idxs with
  | [] => ret acc
  | idx :: idxs' =>
      self <- get ;;
      within <- (if (idx =? mode self)%Z
                 then
                   a <- Dict.getitem (actions self) idx ;;
                   limit <- Action.getattr a "max_staying_time" ;;
                   ret (Py.value_le_bool
                          (Py.Num (staying_time self + delta_time)) limit)
                 else ret false) ;;
      if within : bool
      then feasible_loop idxs' delta_time (acc ++ [idx])
      else feasible_loop idxs' delta_time (acc ++ [idx])
  end.

Definition get_feasible_action_idxs (delta_time : Q) : M t (list Z) :=
  self <- get ;;
  a <- current_action ;;
  least <- Action.getattr a "min_staying_time" ;;
  if Py.value_lt_bool (Py.Num (staying_time self)) least
  then ret [mode self]
  else feasible_loop (Dict.keys (actions self)) delta_time [].

(** The electrical half of [state_transition]; returns the average
    power written to the interaction. *)
Definition ramp_electrical (delta_time : Q) : M t Q :=
  self <- get ;;
  let total_energy := 0 in
  let initial_power := el_power self in
  target <- current_action ;;
  let remaining_ramping_power := Action.el_power target - el_power self in
  total_energy <-
    (if Py.Qlt_bool remaining_ramping_power 0 then
       remaining_ramping_time <-
         div remaining_ramping_power (el_ramp_up_rate self) ;;
       set_el_power (Py.max (Action.el_power target)
                       (initial_power + el_ramp_up_rate self * delta_time)) ;;;
       self <- get ;;
       ret (Py.min delta_time remaining_ramping_time
              * (initial_power + el_power self) / 2
            + Py.max 0 (delta_time - remaining_ramping_time) * el_power self)
     else if Py.Qlt_bool 0 remaining_ramping_power then
       remaining_ramping_time <-
         div remaining_ramping_power (el_ramp_down_rate self) ;;
       set_el_power (Py.min (Action.el_power target)
                       (initial_power + el_ramp_down_rate self * delta_time)) ;;;
       self <- get ;;
       ret (Py.min delta_time remaining_ramping_time
              * (initial_power + el_power self) / 2
            + Py.max 0 (delta_time - remaining_ramping_time) * el_power self)
     else ret total_energy) ;;
  self <- get ;;
  let total_energy := delta_time * el_power self in
  div total_energy delta_time.

(** The thermal half. *)
Definition ramp_thermal (delta_time : Q) : M t Q :=
  self <- get ;;
  let initial_power := th_power self in
  target <- current_action ;;
  let remaining_ramping_power := Action.th_power target - th_power self in
  total_energy <-
    (if Py.Qlt_bool remaining_ramping_power 0 then
       remaining_ramping_time <-
         div remaining_ramping_power (th_ramp_up_rate self) ;;
       set_th_power (Py.max (Action.th_power target)
                       (initial_power + th_ramp_up_rate self * delta_time)) ;;;
       self <- get ;;
       ret (Py.min delta_time remaining_ramping_time
              * (initial_power + th_power self) / 2
            + Py.max 0 (delta_time - remaining_ramping_time) * th_power self)
     else if Py.Qlt_bool 0 remaining_ramping_power then
       remaining_ramping_time <-
         div remaining_ramping_power (th_ramp_down_rate self) ;;
       set_th_power (Py.min (Action.th_power target)
                       (initial_power + th_ramp_down_rate self * delta_time)) ;;;
       self <- get ;;
       ret (Py.min delta_time remaining_ramping_time
              * (initial_power + th_power self) / 2
            + Py.max 0 (delta_time - remaining_ramping_time) * th_power self)
     else
       self <- get ;;
       ret (delta_time * th_power self)) ;;
  div total_energy delta_time.

Definition state_transition (delta_time : Q) (action_idx : Z)
    (environment_interaction : option Interaction.t)
  : M t Interaction.t :=
  let sys_env_interaction := Interaction.new 0 0 in
  self <- get ;;
  (if negb (action_idx =? mode self)%Z
   then set_mode action_idx ;;; set_staying_time 0
   else ret tt) ;;;
  el <- ramp_electrical delta_time ;;
  let sys_env_interaction :=
    Interaction.make el (Interaction.th_power sys_env_interaction)
                     (Interaction.extra sys_env_interaction) in
  th <- ramp_thermal delta_time ;;
  let sys_env_interaction :=
    Interaction.make (Interaction.el_power sys_env_interaction) th
                     (Interaction.extra sys_env_interaction) in
  self <- get ;;
  set_staying_time (staying_time self + delta_time) ;;;
  ret sys_env_interaction.

End CHPPlant.

(* ================================================================== *)
(** ** heat_storage.py *)

Module HeatStorage.

Definition calculate_tank_capacity
    (max_temp min_temp volume density heat_capacity : Q) : Q :=
  (max_temp - min_temp) * volume * density * heat_capacity.

(** [self.actions] is [None]: the storage has no catalog. *)
Record t : Type := make {
  capacity : Q;                  (* Ws *)
  charging_efficiency : Q;
  discharging_efficiency : Q;
  relative_loss_per_tick : Q;
  absolute_loss_per_tick : Q;
  charge : Q                     (* Ws *)
}.

Definition with_charge (self : t) (c : Q) : t :=
  make (capacity self) (charging_efficiency self)
       (discharging_efficiency self) (relative_loss_per_tick self)
       (absolute_loss_per_tick self) c.

Definition init (capacity initial_charge charging_efficiency
    discharging_efficiency relative_loss absolute_loss : Q) : t :=
  make (capacity * 1000 * 60 * 60) charging_efficiency
       discharging_efficiency relative_loss absolute_loss
       (initial_charge * 1000 * 60 * 60).

Definition set_state (charge_kwh : Q) : M t unit :=
  self <- get ;;
  put (with_charge self (charge_kwh * 1000 * 60 * 60)).

Definition get_state_of_charge : M t Q :=
  self <- get ;;
  div (charge self) (capacity self).

Definition state_transition (delta_time : Q) (action_idx : option Z)
    (environment_interaction : option Interaction.t)
  : M t Interaction.t :=
  self <- get ;;
  env <- match environment_interaction with
         | Some e => ret e
         | None => raise AttributeError
         end ;;
  let energy := - Interaction.th_power env * delta_time * 1000 in
  let energy_flow := 0 in
  let diff := energy in
  flow_diff <-
    (if Py.Qlt_bool 0 energy then
       let max_energy :=
         capacity self * (1 + relative_loss_per_tick self / 2)
         - charge self * (1 - relative_loss_per_tick self / 2)
         + absolute_loss_per_tick self in
       max_energy <- div max_energy (charging_efficiency self) ;;
       let diff := Py.max 0 (energy - max_energy) in
       ret (energy - diff, diff)
     else if Py.Qlt_bool energy 0 then
       let min_energy :=
         0 - charge self * (1 - relative_loss_per_tick self / 2)
         + absolute_loss_per_tick self in
       let min_energy := min_energy * discharging_efficiency self in
       let diff := Py.min 0 (energy - min_energy) in
       ret (energy - diff, diff)
     else ret (energy_flow, diff)) ;;
  let energy_flow := fst flow_diff in
  let diff := snd flow_diff in
  let environment_interaction :=
    Interaction.new (Interaction.el_power env) 0 in
  th <- div (- diff / 1000) delta_time ;;
  let environment_interaction :=
    Interaction.make (Interaction.el_power environment_interaction) th
                     (Interaction.extra environment_interaction) in
  delta_c <- (if Py.Qlt_bool 0 energy_flow
              then ret (energy_flow * charging_efficiency self)
              else if Py.Qlt_bool energy_flow 0
              then div energy_flow (discharging_efficiency self)
              else ret 0) ;;
  new_charge <- div (delta_c
                     + charge self * (1 - relative_loss_per_tick self / 2)
                     - absolute_loss_per_tick self)
                    (1 + relative_loss_per_tick self / 2) ;;
  put (with_charge self new_charge) ;;;
  ret environment_interaction.

(** Whether the loop body of [filter_actions] reaches the assignment
    [filtered_actions[idx] = action_map[idx]]. *)
Definition keeps (self : t) (min_charge max_charge max_power min_power : Q)
    (thermal_power : Q) : bool :=
  if Py.Qlt_bool (charge self) min_charge && Qle_bool thermal_power 0
  then false
  else if Qeq_bool (charge self) min_charge && Py.Qlt_bool thermal_power 0
  then false
  else if Qle_bool max_charge (charge self) && Py.Qlt_bool 0 thermal_power
  then false
  else Qle_bool (thermal_power * 1000) max_power
       && Qle_bool min_power (thermal_power * 1000).

Fixpoint filter_loop (function : Action.t -> Q)
    (action_map : Dict.t Action.t) (idxs : list Z)
    (min_charge max_charge max_power min_power : Q)
    (filtered_actions : Dict.t Action.t) : M t (Dict.t Action.t) :=
  match idxs with
  | [] => ret filtered_actions
  | idx :: idxs' =>
      self <- get ;;
      a <- Dict.getitem action_map idx ;;
      let thermal_power := function a in
      if keeps self min_charge max_charge max_power min_power thermal_power
      then filter_loop function action_map idxs'
             min_charge max_charge max_power min_power
             (Dict.set filtered_actions idx a)
      else filter_loop function action_map idxs'
             min_charge max_charge max_power min_power filtered_actions
  end.

Definition filter_actions (function : Action.t -> Q)
    (action_map : Dict.t Action.t) (delta_time min_soc max_soc : Q)
  : M t (Dict.t Action.t) :=
  self <- get ;;
  let min_charge := capacity self * min_soc in
  let max_charge := capacity self * max_soc in
  let max_power :=
    capacity self * (1 + relative_loss_per_tick self / 2)
    - charge self * (1 - relative_loss_per_tick self / 2)
    + absolute_loss_per_tick self in
  max_power <- div max_power (charging_efficiency self) ;;
  max_power <- div max_power delta_time ;;
  let min_power :=
    0 - charge self * (1 - relative_loss_per_tick self / 2)
    + absolute_loss_per_tick self in
  min_power <- div (min_power * discharging_efficiency self) delta_time ;;
  filter_loop function action_map (Dict.keys action_map)
              min_charge max_charge max_power min_power Dict.empty.

End HeatStorage.

(* ================================================================== *)
(** ** The systems of the concrete scenarios *)

Module Scenario.

(** Battery(10 kWh, 5 kW, granularity 1, 5 kWh, lossless). *)
Definition battery : exn + Battery.t := Battery.init 10 5 1 5 1 1 0 0.

Definition staying (least : Q) (limit : Py.value)
  : list (string * Py.value) :=
  [("min_staying_time"%string, Py.Num least);
   ("max_staying_time"%string, limit)].

Definition idle_idx : Z := 0.
Definition full_idx : Z := 1.

(** Two modes, idle (0 kW, 0 kW) and full (10 kW, 20 kW, at least
    600 s); [limit] bounds the time in idle. *)
Definition modes (limit : Py.value) : Dict.t Action.t :=
  [(idle_idx, Action.make idle_idx 0 0 (staying 0 limit));
   (full_idx, Action.make full_idx 10 20 (staying 600 Py.Inf))].

(** The plant in idle for [since] seconds, all ramp rates 1 kW/s. *)
Definition plant (limit : Py.value) (since : Q) : exn + CHPPlant.t :=
  CHPPlant.init (modes limit) idle_idx since 1 1 1 1.

(** A 10 kWh tank holding 2 kWh, lossless. *)
Definition tank : HeatStorage.t := HeatStorage.init 10 2 1 1 0 0.

(** Candidate actions of a heater: off, and 1 kW into the tank. *)
Definition heater : Dict.t Action.t :=
  [(0%Z, Action.make 0 0 0 []); (1%Z, Action.make 1 0 1 [])].

End Scenario.

(* ================================================================== *)
(** ** Vocabulary of the statements *)

(** [x] lies between [a] and [b], whichever of the two is larger. *)
Definition between (a x b : Q) : Prop :=
  (a <= x /\ x <= b) \/ (b <= x /\ x <= a).

Module Catalog.

(** The keys are exactly [0 .. len - 1], as in the catalog the battery
    builds for itself and walks by [range(0, len(self.actions))]. *)
Definition dense {V} (d : Dict.t V) : Prop :=
  forall k, Dict.mem d k = true <-> (0 <= k < Dict.len d)%Z.

(** While the battery's loop runs: idle at [g], and [i] levels on each
    side of it. *)
Definition partial {V} (g i : Z) (d : Dict.t V) : Prop :=
  (forall k, Dict.mem d k = true <->
             (k = g \/ 0 <= k < i \/ g + 1 <= k < g + 1 + i)%Z)
  /\ Dict.len d = (1 + 2 * i)%Z.

End Catalog.

Module Band.

(** The test of the battery's loop body for the action at [idx], as a
    function of the catalog. *)
Definition within (actions : Dict.t Action.t) (max_power min_power : Q)
    (idx : Z) : bool :=
  match Dict.lookup actions idx with
  | Some a => Qle_bool (Action.el_power a * 1000) max_power
              && Qle_bool min_power (Action.el_power a * 1000)
  | None => false
  end.

End Band.

Module Tank.

(** The most energy (Ws, at the inlet) the storage can take in a tick:
    what fills it to capacity after the symmetric losses, divided by
    the charging efficiency. *)
Definition storable (h : HeatStorage.t) : Q :=
  (HeatStorage.capacity h * (1 + HeatStorage.relative_loss_per_tick h / 2)
   - HeatStorage.charge h * (1 - HeatStorage.relative_loss_per_tick h / 2)
   + HeatStorage.absolute_loss_per_tick h)
  / HeatStorage.charging_efficiency h.

(** The most energy (Ws, at the outlet, hence not positive for a
    storage that holds more than it leaks) that can be drawn in a tick:
    what empties it, times the discharging efficiency. *)
Definition extractable (h : HeatStorage.t) : Q :=
  (0
   - HeatStorage.charge h * (1 - HeatStorage.relative_loss_per_tick h / 2)
   + HeatStorage.absolute_loss_per_tick h)
  * HeatStorage.discharging_efficiency h.

(** The charge after a tick in which [accepted] Ws crossed the
    boundary is [after] (symmetric-loss update of section 4.3). *)
Definition updated (h : HeatStorage.t) (accepted after : Q) : Prop :=
  exists delta_c,
    ((0 < accepted
      /\ delta_c == accepted * HeatStorage.charging_efficiency h)
     \/ (accepted < 0
         /\ delta_c == accepted / HeatStorage.discharging_efficiency h)
     \/ (accepted == 0 /\ delta_c == 0))
    /\ after ==
       (delta_c
        + HeatStorage.charge h
          * (1 - HeatStorage.relative_loss_per_tick h / 2)
        - HeatStorage.absolute_loss_per_tick h)
       / (1 + HeatStorage.relative_loss_per_tick h / 2).

End Tank.

Module Filter.

(** The tick's band in W, from the storage's own parameters. *)
Definition in_band (h : HeatStorage.t) (delta_time thermal_power : Q)
  : Prop :=
  Tank.extractable h / delta_time <= thermal_power * 1000
  /\ thermal_power * 1000 <= Tank.storable h / delta_time.

(** Which projected powers survive, in the words of the specification:
    nothing that does not charge at or below [min_soc], nothing that
    charges at or above [max_soc], nothing outside the band. *)
Definition as_specified (h : HeatStorage.t)
    (delta_time min_soc max_soc thermal_power : Q) : Prop :=
  ~ (HeatStorage.charge h <= HeatStorage.capacity h * min_soc
     /\ thermal_power <= 0)
  /\ ~ (HeatStorage.capacity h * max_soc <= HeatStorage.charge h
        /\ 0 < thermal_power)
  /\ in_band h delta_time thermal_power.

(** The same with the lower bound told apart: strictly below
    [min_soc] nothing that does not charge survives, exactly at
    [min_soc] only discharging is dropped. *)
Definition as_amended (h : HeatStorage.t)
    (delta_time min_soc max_soc thermal_power : Q) : Prop :=
  ~ (HeatStorage.charge h < HeatStorage.capacity h * min_soc
     /\ thermal_power <= 0)
  /\ ~ (HeatStorage.charge h == HeatStorage.capacity h * min_soc
        /\ thermal_power < 0)
  /\ ~ (HeatStorage.capacity h * max_soc <= HeatStorage.charge h
        /\ 0 < thermal_power)
  /\ in_band h delta_time thermal_power.

(** [result] is the sub-mapping of [action_map] of the actions whose
    projected power satisfies [keep]. *)
Definition selects (keep : Q -> Prop) (function : Action.t -> Q)
    (action_map result : Dict.t Action.t) : Prop :=
  forall idx a,
    Dict.lookup result idx = Some a <->
    Dict.lookup action_map idx = Some a /\ keep (function a).

End Filter.

Module Plant.

(** The ramp rates as the constructor stores them when it is given
    positive magnitudes: ramp-up negated, ramp-down as is. *)
Definition rates_ok (p : CHPPlant.t) : Prop :=
  CHPPlant.el_ramp_up_rate p < 0 /\ 0 < CHPPlant.el_ramp_down_rate p
  /\ CHPPlant.th_ramp_up_rate p < 0 /\ 0 < CHPPlant.th_ramp_down_rate p.

(** What a tick never writes: the catalog and the ramp rates. *)
Definition same_config (p p' : CHPPlant.t) : Prop :=
  CHPPlant.actions p' = CHPPlant.actions p
  /\ CHPPlant.el_ramp_up_rate p' = CHPPlant.el_ramp_up_rate p
  /\ CHPPlant.el_ramp_down_rate p' = CHPPlant.el_ramp_down_rate p
  /\ CHPPlant.th_ramp_up_rate p' = CHPPlant.th_ramp_up_rate p
  /\ CHPPlant.th_ramp_down_rate p' = CHPPlant.th_ramp_down_rate p.

(** One tick per entry of [delta_times], all with the same mode. *)
Definition hold (action_idx : Z) (delta_times : list Q)
  : M CHPPlant.t unit :=
  for_each delta_times
    (fun delta_time =>
       CHPPlant.state_transition delta_time action_idx None ;;; ret tt).

End Plant.

(* ================================================================== *)
(** ** The base class as the battery inherits it *)

Module Inherited.

(** [self.actions = d] on a battery. *)
Definition with_actions (self : Battery.t) (d : Dict.t Action.t) : Battery.t :=
  Battery.make d (Battery.capacity self) (Battery.charging_efficiency self)
               (Battery.discharging_efficiency self)
               (Battery.relative_loss_per_tick self)
               (Battery.absolute_loss_per_tick self) (Battery.charge self).

(** A method of [AbstractSystem] called on a battery: it reads and writes
    [self.actions] and nothing else. *)
Definition on_actions {A} (m : M (Dict.t Action.t) A) : M Battery.t A :=
  fun self =>
    match m (Battery.actions self) with
    | Returned x d => Returned x (with_actions self d)
    | Raised e d => Raised e (with_actions self d)
    end.

Definition add_action (action : Action.t) : M Battery.t unit :=
  on_actions (AbstractSystem.add_action action).

Definition get_actions_by_idxs (idxs : list Z)
  : M Battery.t (Dict.t Action.t) :=
  on_actions (AbstractSystem.get_actions_by_idxs idxs).

End Inherited.

(* ================================================================== *)
(** ** The entries of the battery's catalog *)

Module Levels.

(** [Action(granularity, 0)] *)
Definition idle (granularity : Z) : Action.t := Action.make granularity 0 0 [].




End Levels.

(* ================================================================== *)
(** ** One tick of a ramping channel *)

Module Ramp.

(** The power [x] a channel ends at when it starts at [cur] and ramps
    towards [target] for [dt] seconds with the stored rates [up] (used
    when the target is lower) and [down] (when it is higher): the target
    itself if it is within reach, otherwise exactly one tick of ramping
    away from [cur]. *)
Definition stepped (target cur up down dt x : Q) : Prop :=
  (target < cur ->
   (cur + up * dt <= target -> x = target)
   /\ (target < cur + up * dt -> x = cur + up * dt))
  /\ (cur < target ->
      (target <= cur + down * dt -> x = target)
      /\ (cur + down * dt < target -> x = cur + down * dt))
  /\ (cur == target -> x = cur).

(** The reported average [avg] of a channel that went from [cur] to [x]:
    between the two, and their mean when the whole tick was spent
    ramping (the target was not reached before the end of the tick). *)
Definition averaged (target cur up down dt x avg : Q) : Prop :=
  between cur avg x
  /\ (target < cur -> target <= cur + up * dt -> avg == (cur + x) / 2)
  /\ (cur < target -> cur + down * dt <= target -> avg == (cur + x) / 2)
  /\ (cur == target -> avg == cur).

End Ramp.

(* ================================================================== *)
(** ** Comparisons, division and the monad *)

Lemma Qlt_bool_true (a b : Q) : Py.Qlt_bool a b = true <-> a < b.
Proof.
  unfold Py.Qlt_bool. rewrite negb_true_iff, <- not_true_iff_false.
  rewrite Qle_bool_iff. split; intro H.
  - apply Qnot_le_lt, H.
  - apply Qlt_not_le, H.
Qed.

Lemma Qlt_bool_false (a b : Q) : Py.Qlt_bool a b = false <-> b <= a.
Proof.
  unfold Py.Qlt_bool. rewrite negb_false_iff. apply Qle_bool_iff.
Qed.

Lemma Qle_bool_false (a b : Q) : Qle_bool a b = false <-> b < a.
Proof.
  rewrite <- not_true_iff_false, Qle_bool_iff. split; intro H.
  - apply Qnot_le_lt, H.
  - apply Qlt_not_le, H.
Qed.

Lemma Qeq_bool_false (a b : Q) : Qeq_bool a b = false <-> ~ a == b.
Proof.
  rewrite <- not_true_iff_false, Qeq_bool_iff. reflexivity.
Qed.

(** Turn every comparison the interpreter made into the order fact it
    stands for. *)
Ltac reflect_cmp :=
  repeat match goal with
    | H : Py.Qlt_bool _ _ = true |- _ => apply Qlt_bool_true in H
    | H : Py.Qlt_bool _ _ = false |- _ => apply Qlt_bool_false in H
    | H : Qle_bool _ _ = true |- _ => apply Qle_bool_iff in H
    | H : Qle_bool _ _ = false |- _ => apply Qle_bool_false in H
    | H : Qeq_bool _ _ = true |- _ => apply Qeq_bool_iff in H
    | H : Qeq_bool _ _ = false |- _ => apply Qeq_bool_false in H
    | H : _ && _ = true |- _ => apply andb_true_iff in H; destruct H
    end.

(** [lra] after the divisions by the literals of the source have been
    turned into multiplications. *)
Ltac literal_div :=
  unfold Qdiv in *;
  change (/ 2) with (1 # 2) in *;
  change (/ 1000) with (1 # 1000) in *.

Ltac qlra := literal_div; lra.

Lemma div_returns {S} (x y : Q) (s : S) :
  ~ y == 0 -> div x y s = Returned (x / y) s.
Proof.
  intro H. unfold div. apply Qeq_bool_false in H. rewrite H. reflexivity.
Qed.

Lemma div_raises {S} (x y : Q) (s : S) :
  y == 0 -> div x y s = Raised ZeroDivisionError s.
Proof.
  intro H. unfold div. apply Qeq_bool_iff in H. rewrite H. reflexivity.
Qed.

Lemma bind_returned {S A B} (m : M S A) (k : A -> M S B) s a s' :
  m s = Returned a s' -> bind m k s = k a s'.
Proof. intro H. unfold bind. rewrite H. reflexivity. Qed.

Lemma bind_raised {S A B} (m : M S A) (k : A -> M S B) s e s' :
  m s = Raised e s' -> bind m k s = Raised e s'.
Proof. intro H. unfold bind. rewrite H. reflexivity. Qed.

Lemma getitem_returns {S V} (d : Dict.t V) k v (s : S) :
  Dict.lookup d k = Some v -> Dict.getitem d k s = Returned v s.
Proof. intro H. unfold Dict.getitem. rewrite H. reflexivity. Qed.

Lemma getitem_raises {S V} (d : Dict.t V) k (s : S) :
  Dict.lookup d k = None -> Dict.getitem d k s = Raised KeyError s.
Proof. intro H. unfold Dict.getitem. rewrite H. reflexivity. Qed.

(* ================================================================== *)
(** ** SystemEnvironmentInteraction *)

(** C9.  The claim is that [i * k] yields a new interaction with both
    powers scaled and leaves [i] alone.  The operator does the opposite:
    for every interaction [i] and every scalar [k] the call evaluates to
    [None], and it is [i] itself whose powers have been multiplied by
    [k]; [k * i] is the same method. *)
Theorem interaction_mul_scales_in_place (i : Interaction.t) (k : Q) :
  Interaction.mul k i =
    Returned None
      (Interaction.make (Interaction.el_power i * k)
                        (Interaction.th_power i * k)
                        (Interaction.extra i))
  /\ Interaction.rmul k i = Interaction.mul k i.
Proof. split; reflexivity. Qed.

(** The same at [i = (2 kW, 3 kW)] and [k = 2]: no product comes back and
    [i] now reads (4 kW, 6 kW). *)
Lemma interaction_mul_example :
  let i := Interaction.new 2 3 in
  returned (Interaction.mul 2 i) = Some None
  /\ final_state (Interaction.mul 2 i) <> i.
Proof. split; [reflexivity | discriminate]. Qed.

(* ================================================================== *)
(** ** Battery: one tick *)

Section BatteryTick.

Variable b : Battery.t.

Local Abbreviation r := (Battery.relative_loss_per_tick b).
Local Abbreviation a := (Battery.absolute_loss_per_tick b).

Hypothesis loss_range : 0 <= r /\ r < 1.

Lemma loss_divisor_nonzero : ~ 1 + r / 2 == 0.
Proof. destruct loss_range. qlra. Qed.

(** Idling: the charge is written, then the lookup of [None] in the
    catalog raises. *)
Lemma state_transition_idle (delta_time : Q) env :
  Battery.state_transition delta_time None env b =
    Raised KeyError
      (Battery.with_charge b
         ((0 + Battery.charge b * (1 - r / 2) - a) / (1 + r / 2))).
Proof.
  unfold Battery.state_transition.
  rewrite (bind_returned _ _ b b b) by reflexivity.
  rewrite (bind_returned _ _ b 0 b) by reflexivity.
  change (Py.Qlt_bool 0 0) with false. cbv iota.
  rewrite (bind_returned _ _ b 0 b) by reflexivity.
  erewrite bind_returned by (apply div_returns, loss_divisor_nonzero).
  reflexivity.
Qed.

(** An index that is not in the catalog: the first statement that
    touches the catalog raises, and nothing has been written. *)
Lemma state_transition_unregistered (delta_time : Q) (i : Z) env :
  Dict.lookup (Battery.actions b) i = None ->
  Battery.state_transition delta_time (Some i) env b = Raised KeyError b.
Proof.
  intro H. unfold Battery.state_transition.
  rewrite (bind_returned _ _ b b b) by reflexivity.
  erewrite bind_raised; [reflexivity|].
  erewrite bind_raised; [reflexivity|].
  apply getitem_raises, H.
Qed.

End BatteryTick.

(** C3.  The claim is that idling succeeds and reports 0 kW.  For every
    battery with a relative loss in [0,1) and every tick length, the call
    with [action_idx = None] does apply exactly the leakage terms to the
    charge, but then raises [KeyError] instead of returning: the return
    statement looks [None] up in the catalog. *)
Theorem battery_idle_raises_after_leakage
    (b : Battery.t) (delta_time : Q) (env : option Interaction.t) :
  0 < delta_time ->
  0 <= Battery.relative_loss_per_tick b < 1 ->
  let r := Battery.relative_loss_per_tick b in
  let a := Battery.absolute_loss_per_tick b in
  let out := Battery.state_transition delta_time None env b in
  raised out = Some KeyError
  /\ returned out = None
  /\ Battery.charge (final_state out)
     == (Battery.charge b * (1 - r / 2) - a) / (1 + r / 2)
  /\ final_state out = Battery.with_charge b (Battery.charge (final_state out)).
Proof.
  intros _ Hr r a out. subst out.
  rewrite state_transition_idle by exact Hr.
  repeat split. simpl. fold r a.
  unfold Qdiv. ring.
Qed.

(** The scenario battery, idling for an hour. *)
Lemma battery_idle_raises_after_leakage_witness :
  exists b, Scenario.battery = inr b
  /\ raised (Battery.state_transition 3600 None None b) = Some KeyError.
Proof.
  eexists. split; [reflexivity|].
  apply (battery_idle_raises_after_leakage _ 3600 None).
  - reflexivity.
  - split; [discriminate | reflexivity].
Defined.

(* ================================================================== *)
(** ** CHP plant: feasible modes *)

Section PlantFeasibility.

Variable p : CHPPlant.t.
Variable delta_time : Q.

(** Both arms of the loop body append the index: the loop returns every
    key of the catalog, whatever the staying time. *)
Lemma feasible_loop_appends_all (idxs acc : list Z) :
  (In (CHPPlant.mode p) idxs ->
   exists a v,
     Dict.lookup (CHPPlant.actions p) (CHPPlant.mode p) = Some a
     /\ Action.assoc (Action.extra a) "max_staying_time" = Some v) ->
  CHPPlant.feasible_loop idxs delta_time acc p = Returned (acc ++ idxs) p.
Proof.
  revert acc. induction idxs as [|idx idxs IH]; intros acc Hcur.
  - simpl. rewrite app_nil_r. reflexivity.
  - assert (Hrest : CHPPlant.feasible_loop idxs delta_time (acc ++ [idx]) p
                    = Returned (acc ++ idx :: idxs) p).
    { rewrite IH by (intro; apply Hcur; right; assumption).
      rewrite <- app_assoc. reflexivity. }
    simpl. unfold bind at 1, get at 1.
    destruct (idx =? CHPPlant.mode p)%Z eqn:E.
    + apply Z.eqb_eq in E. subst idx.
      destruct Hcur as (a & v & Ha & Hv); [left; reflexivity|].
      unfold bind, Dict.getitem, Action.getattr. rewrite Ha. unfold ret.
      rewrite Hv.
      match goal with
      | |- (if ?c then _ else _) p = _ => destruct c
      end; exact Hrest.
    + unfold bind at 1, ret at 1. exact Hrest.
Qed.

(** Before the minimum staying time has passed, only the current mode
    is offered. *)
Lemma feasible_before_min_staying_time (a : Action.t) (least : Py.value) :
  Dict.lookup (CHPPlant.actions p) (CHPPlant.mode p) = Some a ->
  Action.assoc (Action.extra a) "min_staying_time" = Some least ->
  Py.value_lt_bool (Py.Num (CHPPlant.staying_time p)) least = true ->
  CHPPlant.get_feasible_action_idxs delta_time p
  = Returned [CHPPlant.mode p] p.
Proof.
  intros Ha Hl Hlt.
  unfold CHPPlant.get_feasible_action_idxs, CHPPlant.current_action.
  unfold bind, get, Dict.getitem, Action.getattr. rewrite Ha. unfold ret.
  rewrite Hl, Hlt. reflexivity.
Qed.

(** Afterwards every mode is offered, the current one included even
    when its maximum staying time would be exceeded. *)
Lemma feasible_after_min_staying_time
    (a : Action.t) (least limit : Py.value) :
  Dict.lookup (CHPPlant.actions p) (CHPPlant.mode p) = Some a ->
  Action.assoc (Action.extra a) "min_staying_time" = Some least ->
  Action.assoc (Action.extra a) "max_staying_time" = Some limit ->
  Py.value_lt_bool (Py.Num (CHPPlant.staying_time p)) least = false ->
  CHPPlant.get_feasible_action_idxs delta_time p
  = Returned (Dict.keys (CHPPlant.actions p)) p.
Proof.
  intros Ha Hl Hm Hlt.
  unfold CHPPlant.get_feasible_action_idxs, CHPPlant.current_action.
  unfold bind at 1 2 3 4, get, Dict.getitem, Action.getattr.
  rewrite Ha. unfold ret. rewrite Hl, Hlt.
  rewrite feasible_loop_appends_all; [reflexivity|].
  intros _. exists a, limit. split; assumption.
Qed.

End PlantFeasibility.

(** C1.  The claim is that the current mode is offered only while
    [staying_time + delta_time <= max_staying_time].  The plant below has
    been idle for 8 s, idle may last at most 10 s and has no minimum; a
    tick of 5 s would overrun the limit, and the query still offers the
    idle mode next to the full one. *)
Theorem chp_feasible_offers_expired_mode :
  exists p a,
    Scenario.plant (Py.Num 10) 8 = inr p
    /\ Dict.lookup (CHPPlant.actions p) (CHPPlant.mode p) = Some a
    /\ Action.assoc (Action.extra a) "min_staying_time" = Some (Py.Num 0)
    /\ Action.assoc (Action.extra a) "max_staying_time" = Some (Py.Num 10)
    /\ 0 <= CHPPlant.staying_time p
    /\ ~ CHPPlant.staying_time p + 5 <= 10
    /\ CHPPlant.mode p = Scenario.idle_idx
    /\ CHPPlant.get_feasible_action_idxs 5 p
       = Returned [Scenario.idle_idx; Scenario.full_idx] p.
Proof.
  eexists. eexists.
  split; [reflexivity|]. split; [reflexivity|].
  split; [reflexivity|]. split; [reflexivity|].
  split; [discriminate|]. split; [intro H; apply H; reflexivity|].
  split; reflexivity.
Qed.

(* ================================================================== *)
(** ** CHP plant: one tick *)

Lemma between_refl_l (a b : Q) : between a a b \/ between b a a.
Proof. left. destruct (Qlt_le_dec a b); [left | right]; split; lra. Qed.

Lemma max_ramp_between (target cur rate dt : Q) :
  target - cur < 0 -> rate < 0 -> 0 < dt ->
  between cur (Py.max target (cur + rate * dt)) target.
Proof.
  intros Hrem Hrate Hdt. unfold Py.max.
  assert (rate * dt < 0) by nra.
  destruct (Py.Qlt_bool target (cur + rate * dt)) eqn:E; reflect_cmp;
    right; split; lra.
Qed.

Lemma min_ramp_between (target cur rate dt : Q) :
  0 < target - cur -> 0 < rate -> 0 < dt ->
  between cur (Py.min target (cur + rate * dt)) target.
Proof.
  intros Hrem Hrate Hdt. unfold Py.min.
  assert (0 < rate * dt) by nra.
  destruct (Py.Qlt_bool (cur + rate * dt) target) eqn:E; reflect_cmp;
    left; split; lra.
Qed.

(** Run a method of the plant on a plant given by its fields. *)
Ltac plant_fields :=
  cbn [CHPPlant.actions CHPPlant.mode CHPPlant.staying_time
       CHPPlant.el_power CHPPlant.th_power
       CHPPlant.el_ramp_up_rate CHPPlant.el_ramp_down_rate
       CHPPlant.th_ramp_up_rate CHPPlant.th_ramp_down_rate
       CHPPlant.with_mode CHPPlant.with_staying_time
       CHPPlant.with_el_power CHPPlant.with_th_power] in *.

Ltac plant_run :=
  unfold CHPPlant.current_action, CHPPlant.set_mode,
    CHPPlant.set_staying_time, CHPPlant.set_el_power,
    CHPPlant.set_th_power, Dict.getitem, div, bind, get, put, ret, raise;
  plant_fields.

Section PlantTick.

Variable p : CHPPlant.t.
Variable delta_time : Q.
Variable target : Action.t.

Hypothesis registered :
  Dict.lookup (CHPPlant.actions p) (CHPPlant.mode p) = Some target.
Hypothesis tick_positive : 0 < delta_time.
Hypothesis rates : Plant.rates_ok p.

Lemma tick_nonzero : Qeq_bool delta_time 0 = false.
Proof. apply Qeq_bool_false. lra. Qed.

(** The electrical channel moves towards the target without passing
    it, stays put once there, and reports the power it ends at. *)
Lemma ramp_electrical_returns :
  exists avg x,
    CHPPlant.ramp_electrical delta_time p
    = Returned avg (CHPPlant.with_el_power p x)
    /\ between (CHPPlant.el_power p) x (Action.el_power target)
    /\ (CHPPlant.el_power p == Action.el_power target ->
        x = CHPPlant.el_power p)
    /\ avg == x.
Proof.
  destruct rates as (Hup & Hdown & _ & _).
  assert (Havg : forall x, delta_time * x / delta_time == x).
  { intro x. field. lra. }
  pose proof tick_nonzero as Ht.
  destruct p as [acts m st el th eu ed tu td]; plant_fields.
  assert (Heu : Qeq_bool eu 0 = false) by (apply Qeq_bool_false; lra).
  assert (Hed : Qeq_bool ed 0 = false) by (apply Qeq_bool_false; lra).
  unfold CHPPlant.ramp_electrical. plant_run. rewrite registered.
  destruct (Py.Qlt_bool (Action.el_power target - el) 0) eqn:E1;
    [| destruct (Py.Qlt_bool 0 (Action.el_power target - el)) eqn:E2];
    rewrite ?Heu, ?Hed, ?Ht; plant_fields; rewrite ?Ht;
    clear Heu Hed Ht; reflect_cmp.
  - eexists. eexists. split; [reflexivity|].
    split; [apply max_ramp_between; assumption|].
    split; [intro; lra | apply Havg].
  - eexists. eexists. split; [reflexivity|].
    split; [apply min_ramp_between; assumption|].
    split; [intro; lra | apply Havg].
  - exists (delta_time * el / delta_time), el.
    split; [reflexivity|].
    split; [left; split; lra|].
    split; [reflexivity | apply Havg].
Qed.

(** The thermal channel likewise; its reported average is not needed
    for the bound. *)
Lemma ramp_thermal_returns :
  exists avg x,
    CHPPlant.ramp_thermal delta_time p
    = Returned avg (CHPPlant.with_th_power p x)
    /\ between (CHPPlant.th_power p) x (Action.th_power target)
    /\ (CHPPlant.th_power p == Action.th_power target ->
        x = CHPPlant.th_power p).
Proof.
  destruct rates as (_ & _ & Hup & Hdown).
  pose proof tick_nonzero as Ht.
  destruct p as [acts m st el th eu ed tu td]; plant_fields.
  assert (Htu : Qeq_bool tu 0 = false) by (apply Qeq_bool_false; lra).
  assert (Htd : Qeq_bool td 0 = false) by (apply Qeq_bool_false; lra).
  unfold CHPPlant.ramp_thermal. plant_run. rewrite registered.
  destruct (Py.Qlt_bool (Action.th_power target - th) 0) eqn:E1;
    [| destruct (Py.Qlt_bool 0 (Action.th_power target - th)) eqn:E2];
    rewrite ?Htu, ?Htd, ?Ht; plant_fields; rewrite ?Ht;
    clear Htu Htd Ht; reflect_cmp.
  - eexists. eexists. split; [reflexivity|].
    split; [apply max_ramp_between; assumption | intro; lra].
  - eexists. eexists. split; [reflexivity|].
    split; [apply min_ramp_between; assumption | intro; lra].
  - eexists. exists th.
    split; [reflexivity|].
    split; [left; split; lra | reflexivity].
Qed.

End PlantTick.

Lemma same_config_refl (p : CHPPlant.t) : Plant.same_config p p.
Proof. repeat split. Qed.

Lemma same_config_rates (p p' : CHPPlant.t) :
  Plant.same_config p p' -> Plant.rates_ok p -> Plant.rates_ok p'.
Proof.
  unfold Plant.same_config, Plant.rates_ok.
  intros (_ & -> & -> & -> & ->) H. exact H.
Qed.

(** The first statement of a tick: adopt the chosen mode. *)
Lemma adopt_mode_returns (p : CHPPlant.t) (action_idx : Z) :
  exists p1,
    (if negb (action_idx =? CHPPlant.mode p)%Z
     then CHPPlant.set_mode action_idx ;;; CHPPlant.set_staying_time 0
     else ret tt) p = Returned tt p1
    /\ p1 = (if (action_idx =? CHPPlant.mode p)%Z then p
             else CHPPlant.with_staying_time
                    (CHPPlant.with_mode p action_idx) 0).
Proof.
  destruct (action_idx =? CHPPlant.mode p)%Z; simpl;
    eexists; split; reflexivity.
Qed.

Section PlantStep.

Variable p : CHPPlant.t.
Variable delta_time : Q.
Variable action_idx : Z.
Variable env : option Interaction.t.
Variable target : Action.t.

Hypothesis registered :
  Dict.lookup (CHPPlant.actions p) action_idx = Some target.
Hypothesis tick_positive : 0 < delta_time.
Hypothesis rates : Plant.rates_ok p.

(** A tick with a registered mode returns, and each channel ends
    between where it started and the nominal power of the mode. *)
Lemma state_transition_returns :
  exists out p',
    CHPPlant.state_transition delta_time action_idx env p = Returned out p'
    /\ Plant.same_config p p'
    /\ CHPPlant.mode p' = action_idx
    /\ between (CHPPlant.el_power p) (CHPPlant.el_power p')
               (Action.el_power target)
    /\ between (CHPPlant.th_power p) (CHPPlant.th_power p')
               (Action.th_power target)
    /\ (CHPPlant.el_power p == Action.el_power target ->
        CHPPlant.el_power p' = CHPPlant.el_power p)
    /\ (CHPPlant.th_power p == Action.th_power target ->
        CHPPlant.th_power p' = CHPPlant.th_power p).
Proof.
  unfold CHPPlant.state_transition.
  rewrite (bind_returned _ _ p p p) by reflexivity.
  destruct (adopt_mode_returns p action_idx) as (p1 & Hrun1 & Hp1).
  rewrite (bind_returned _ _ _ _ _ Hrun1).
  assert (Hmode1 : CHPPlant.mode p1 = action_idx).
  { subst p1. destruct (action_idx =? CHPPlant.mode p)%Z eqn:E.
    - apply Z.eqb_eq in E. congruence.
    - reflexivity. }
  assert (Hcfg1 : Plant.same_config p p1
                  /\ CHPPlant.el_power p1 = CHPPlant.el_power p
                  /\ CHPPlant.th_power p1 = CHPPlant.th_power p).
  { subst p1. destruct (action_idx =? CHPPlant.mode p)%Z;
      repeat split. }
  destruct Hcfg1 as (Hcfg1 & Hel1 & Hth1).
  assert (Hreg1 : Dict.lookup (CHPPlant.actions p1) (CHPPlant.mode p1)
                  = Some target).
  { rewrite Hmode1. destruct Hcfg1 as (-> & _). exact registered. }
  pose proof (same_config_rates _ _ Hcfg1 rates) as Hrates1.
  destruct (ramp_electrical_returns p1 delta_time target
              Hreg1 tick_positive Hrates1)
    as (el_avg & x & Hrun2 & Hbx & Hfx & _).
  rewrite (bind_returned _ _ _ _ _ Hrun2).
  set (p2 := CHPPlant.with_el_power p1 x).
  assert (Hcfg2 : Plant.same_config p1 p2) by (repeat split).
  destruct (ramp_thermal_returns p2 delta_time target
              Hreg1 tick_positive (same_config_rates _ _ Hcfg2 Hrates1))
    as (th_avg & y & Hrun3 & Hby & Hfy).
  rewrite (bind_returned _ _ _ _ _ Hrun3).
  eexists. eexists. split; [reflexivity|].
  plant_run. unfold p2 in *. plant_fields.
  rewrite Hel1 in *. rewrite Hth1 in *.
  destruct Hcfg1 as (Ha & Hr1 & Hr2 & Hr3 & Hr4).
  repeat split; assumption.
Qed.

End PlantStep.

(** Holding a registered mode over any number of ticks returns, and a
    channel that has reached the nominal power is never written again. *)
Lemma hold_returns (action_idx : Z) (target : Action.t) (delta_times : list Q) :
  Forall (fun d => 0 < d) delta_times ->
  forall p,
    Dict.lookup (CHPPlant.actions p) action_idx = Some target ->
    Plant.rates_ok p ->
    exists q,
      Plant.hold action_idx delta_times p = Returned tt q
      /\ Plant.same_config p q
      /\ (CHPPlant.el_power p == Action.el_power target ->
          CHPPlant.el_power q = CHPPlant.el_power p)
      /\ (CHPPlant.th_power p == Action.th_power target ->
          CHPPlant.th_power q = CHPPlant.th_power p).
Proof.
  induction 1 as [|d ds Hd _ IH]; intros p Hreg Hrates.
  - exists p. repeat split.
  - destruct (state_transition_returns p d action_idx None target
                Hreg Hd Hrates)
      as (out & p' & Hrun & Hcfg & _ & _ & _ & Hel & Hth).
    assert (Hreg' : Dict.lookup (CHPPlant.actions p') action_idx
                    = Some target).
    { destruct Hcfg as (-> & _). exact Hreg. }
    destruct (IH p' Hreg' (same_config_rates _ _ Hcfg Hrates))
      as (q & Hrest & Hcfg' & Hel' & Hth').
    exists q. split.
    + unfold Plant.hold in *. simpl.
      rewrite (bind_returned _ _ p tt p').
      * exact Hrest.
      * rewrite (bind_returned _ _ _ _ _ Hrun). reflexivity.
    + split.
      * destruct Hcfg as (a1 & a2 & a3 & a4 & a5).
        destruct Hcfg' as (b1 & b2 & b3 & b4 & b5).
        repeat split; congruence.
      * split; intro E.
        -- rewrite <- (Hel E). apply Hel'. rewrite (Hel E). exact E.
        -- rewrite <- (Hth E). apply Hth'. rewrite (Hth E). exact E.
Qed.

(** C10.  For a plant whose ramp rates are positive magnitudes, a tick of
    positive length with a registered mode returns, and afterwards the
    actual electrical and thermal power each lie between their value
    before the call and the nominal power of the selected mode, bounds
    included.  A channel that already equals the nominal power keeps
    exactly that value over any further ticks with the same mode. *)
Theorem chp_ramp_never_overshoots
    (p : CHPPlant.t) (delta_time : Q) (action_idx : Z)
    (env : option Interaction.t) (target : Action.t)
    (delta_times : list Q) :
  Plant.rates_ok p ->
  0 < delta_time ->
  Forall (fun d => 0 < d) delta_times ->
  Dict.lookup (CHPPlant.actions p) action_idx = Some target ->
  (exists out p',
     CHPPlant.state_transition delta_time action_idx env p = Returned out p'
     /\ between (CHPPlant.el_power p) (CHPPlant.el_power p')
                (Action.el_power target)
     /\ between (CHPPlant.th_power p) (CHPPlant.th_power p')
                (Action.th_power target))
  /\ (exists q,
        Plant.hold action_idx delta_times p = Returned tt q
        /\ (CHPPlant.el_power p == Action.el_power target ->
            CHPPlant.el_power q = CHPPlant.el_power p
            /\ CHPPlant.el_power q == Action.el_power target)
        /\ (CHPPlant.th_power p == Action.th_power target ->
            CHPPlant.th_power q = CHPPlant.th_power p
            /\ CHPPlant.th_power q == Action.th_power target)).
Proof.
  intros Hrates Hd Hds Hreg. split.
  - destruct (state_transition_returns p delta_time action_idx env target
                Hreg Hd Hrates)
      as (out & p' & Hrun & _ & _ & Hel & Hth & _).
    exists out, p'. repeat split; assumption.
  - destruct (hold_returns action_idx target delta_times Hds p Hreg Hrates)
      as (q & Hrun & _ & Hel & Hth).
    exists q. split; [exact Hrun|].
    split; intro E; (split; [auto|]).
    + rewrite (Hel E). exact E.
    + rewrite (Hth E). exact E.
Qed.

(** The scenario plant, switched to full for a 5 s tick and then held
    there for three more. *)
Lemma chp_ramp_never_overshoots_witness :
  exists p target,
    Scenario.plant Py.Inf 0 = inr p
    /\ Dict.lookup (CHPPlant.actions p) Scenario.full_idx = Some target
    /\ exists out p',
         CHPPlant.state_transition 5 Scenario.full_idx None p
         = Returned out p'
         /\ between (CHPPlant.el_power p) (CHPPlant.el_power p')
                    (Action.el_power target).
Proof.
  eexists. eexists. split; [reflexivity|]. split; [reflexivity|].
  edestruct (chp_ramp_never_overshoots
               (CHPPlant.make (Scenario.modes Py.Inf) Scenario.idle_idx
                              0 0 0 (- (1)) 1 (- (1)) 1)
               5 Scenario.full_idx None
               (Action.make Scenario.full_idx 10 20
                            (Scenario.staying 600 Py.Inf))
               [5; 5; 5])
    as ((out & p' & Hrun & Hel & _) & _).
  - repeat split.
  - reflexivity.
  - repeat constructor.
  - reflexivity.
  - exists out, p'. split; [exact Hrun | exact Hel].
Defined.

(** C4.  The claim is an average of 2.5 kW on both channels.  In the
    scenario (idle at 0 kW, switched to full for a tick of 5 s, all ramp
    rates 1 kW/s; any limit on the idle time, any time already spent in
    idle) both channels ramp to 5 kW.  The thermal report is the
    trapezoidal 2.5 kW, but the electrical trapezoid is overwritten by
    [delta_time * el_power] and the report is the end power, 5 kW. *)
Theorem chp_switch_reports_end_power_on_electrical
    (limit : Py.value) (since : Q) :
  exists p out p',
    Scenario.plant limit since = inr p
    /\ CHPPlant.state_transition 5 Scenario.full_idx None p = Returned out p'
    /\ Interaction.el_power out == 5
    /\ ~ Interaction.el_power out == 5 / 2
    /\ Interaction.th_power out == 5 / 2
    /\ CHPPlant.el_power p' == 5
    /\ CHPPlant.th_power p' == 5.
Proof.
  eexists. eexists. eexists.
  split; [reflexivity|].
  split; [vm_compute; reflexivity|].
  cbn [Interaction.el_power Interaction.th_power].
  plant_fields.
  repeat split; try reflexivity.
  intro H. discriminate H.
Qed.

(** C2, as stated, fails on the plant: the scenario plant has been idle
    for 100 s, idx 7 is not in its catalog, the call raises [KeyError],
    and by then [mode] is 7 and [staying_time] is 0. *)
Lemma chp_unregistered_action_is_adopted :
  exists p,
    Scenario.plant Py.Inf 100 = inr p
    /\ Dict.lookup (CHPPlant.actions p) 7 = None
    /\ raised (CHPPlant.state_transition 5 7 None p) = Some KeyError
    /\ CHPPlant.mode (final_state (CHPPlant.state_transition 5 7 None p))
       <> CHPPlant.mode p
    /\ ~ CHPPlant.staying_time
           (final_state (CHPPlant.state_transition 5 7 None p))
         == CHPPlant.staying_time p.
Proof.
  eexists. split; [reflexivity|].
  split; [reflexivity|]. split; [reflexivity|].
  split; [discriminate|].
  intro H. discriminate H.
Qed.

Section PlantUnregistered.

Variable p : CHPPlant.t.
Variable delta_time : Q.
Variable action_idx : Z.
Variable env : option Interaction.t.

Hypothesis unregistered :
  Dict.lookup (CHPPlant.actions p) action_idx = None.

(** The mode is adopted first; the lookup of its action then raises. *)
Lemma plant_state_transition_unregistered :
  CHPPlant.state_transition delta_time action_idx env p =
    Raised KeyError
      (if (action_idx =? CHPPlant.mode p)%Z then p
       else CHPPlant.with_staying_time
              (CHPPlant.with_mode p action_idx) 0).
Proof.
  unfold CHPPlant.state_transition.
  rewrite (bind_returned _ _ p p p) by reflexivity.
  destruct (adopt_mode_returns p action_idx) as (p1 & Hrun1 & Hp1).
  rewrite (bind_returned _ _ _ _ _ Hrun1).
  rewrite <- Hp1.
  assert (Hlook : Dict.lookup (CHPPlant.actions p1) (CHPPlant.mode p1)
                  = None).
  { subst p1. destruct (action_idx =? CHPPlant.mode p)%Z eqn:E.
    - apply Z.eqb_eq in E. rewrite <- E. exact unregistered.
    - exact unregistered. }
  apply bind_raised. unfold CHPPlant.ramp_electrical.
  rewrite (bind_returned _ _ p1 p1 p1) by reflexivity.
  apply bind_raised. unfold CHPPlant.current_action.
  rewrite (bind_returned _ _ p1 p1 p1) by reflexivity.
  apply getitem_raises, Hlook.
Qed.

End PlantUnregistered.

(** C2, amended.  With an index that is in neither catalog, both calls
    raise [KeyError].  The battery is left exactly as it was.  The plant
    keeps its catalog, its ramp rates and its actual electrical and
    thermal power, but it has already adopted the index: [mode] is the
    unregistered index, and [staying_time] is 0 unless that index was
    the mode before the call. *)
Theorem unregistered_action_raises
    (b : Battery.t) (p : CHPPlant.t) (delta_time : Q) (action_idx : Z)
    (env : option Interaction.t) :
  Dict.lookup (Battery.actions b) action_idx = None ->
  Dict.lookup (CHPPlant.actions p) action_idx = None ->
  let out_b := Battery.state_transition delta_time (Some action_idx) env b in
  let out_p := CHPPlant.state_transition delta_time action_idx env p in
  (raised out_b = Some KeyError /\ final_state out_b = b)
  /\ raised out_p = Some KeyError
  /\ Plant.same_config p (final_state out_p)
  /\ CHPPlant.el_power (final_state out_p) = CHPPlant.el_power p
  /\ CHPPlant.th_power (final_state out_p) = CHPPlant.th_power p
  /\ CHPPlant.mode (final_state out_p) = action_idx
  /\ CHPPlant.staying_time (final_state out_p)
     = (if (action_idx =? CHPPlant.mode p)%Z
        then CHPPlant.staying_time p else 0).
Proof.
  intros Hb Hp out_b out_p. subst out_b out_p.
  rewrite state_transition_unregistered by exact Hb.
  rewrite plant_state_transition_unregistered by exact Hp.
  split; [split; reflexivity|].
  destruct (action_idx =? CHPPlant.mode p)%Z eqn:E; simpl.
  - apply Z.eqb_eq in E. repeat split. symmetry. exact E.
  - repeat split.
Qed.

(** The scenario battery and plant with idx 7. *)
Lemma unregistered_action_raises_witness :
  exists b p,
    Scenario.battery = inr b
    /\ Scenario.plant Py.Inf 100 = inr p
    /\ final_state (Battery.state_transition 3600 (Some 7%Z) None b) = b
    /\ CHPPlant.mode (final_state (CHPPlant.state_transition 5 7 None p))
       = 7%Z.
Proof.
  eexists. eexists. split; [reflexivity|]. split; [reflexivity|].
  split.
  - apply (unregistered_action_raises _
             (CHPPlant.make (Scenario.modes Py.Inf) 0 100 0 0
                            (- (1)) 1 (- (1)) 1) 3600 7 None);
      reflexivity.
  - reflexivity.
Defined.

(* ================================================================== *)
(** ** Battery: the catalog built by the constructor *)

Lemma mem_set {V} (d : Dict.t V) (k k' : Z) (v : V) :
  Dict.mem (Dict.set d k v) k' = ((k' =? k)%Z || Dict.mem d k')%bool.
Proof.
  unfold Dict.mem. induction d as [|[k0 v0] d IH]; simpl.
  - destruct (k' =? k)%Z; reflexivity.
  - destruct (k =? k0)%Z eqn:E; simpl.
    + apply Z.eqb_eq in E. subst k0.
      destruct (k' =? k)%Z; reflexivity.
    + destruct (k' =? k0)%Z eqn:E'.
      * apply Z.eqb_eq in E'. subst k0.
        rewrite Z.eqb_sym, E. reflexivity.
      * exact IH.
Qed.

Lemma len_set_new {V} (d : Dict.t V) (k : Z) (v : V) :
  Dict.mem d k = false -> Dict.len (Dict.set d k v) = (Dict.len d + 1)%Z.
Proof.
  unfold Dict.mem, Dict.len. induction d as [|[k0 v0] d IH]; simpl; intro H.
  - reflexivity.
  - destruct (k =? k0)%Z; [discriminate|].
    simpl. specialize (IH H). lia.
Qed.

Lemma add_action_new (d : Dict.t Action.t) (a : Action.t) :
  Dict.mem d (Action.idx a) = false ->
  AbstractSystem.add_action a d
  = Returned tt (Dict.set d (Action.idx a) a).
Proof.
  intro H. unfold AbstractSystem.add_action, bind, get. rewrite H.
  reflexivity.
Qed.

Lemma add_action_duplicate (d : Dict.t Action.t) (a : Action.t) :
  Dict.mem d (Action.idx a) = true ->
  AbstractSystem.add_action a d = Raised ValueError d.
Proof.
  intro H. unfold AbstractSystem.add_action, bind, get. rewrite H.
  reflexivity.
Qed.

Lemma mem_false_iff {V} (d : Dict.t V) (k : Z) (P : Prop) :
  (Dict.mem d k = true <-> P) -> ~ P -> Dict.mem d k = false.
Proof.
  intros H HP. destruct (Dict.mem d k); [|reflexivity].
  exfalso. apply HP, H. reflexivity.
Qed.




Section BatteryCatalog.

Variable max_power : Q.
Variable granularity : Z.
Variable decimals : nat.

Hypothesis granularity_positive : (0 < granularity)%Z.

Lemma granularity_divides (x : Q) (d : Dict.t Action.t) :
  div x (inject_Z granularity) d = Returned (x / inject_Z granularity) d.
Proof.
  apply div_returns. unfold Qeq, inject_Z. simpl. lia.
Qed.

(** One turn of the loop adds two fresh keys. *)
Lemma add_levels_partial (i : Z) (d : Dict.t Action.t) :
  (0 <= i < granularity)%Z ->
  Catalog.partial granularity i d ->
  exists d',
    Battery.add_levels max_power granularity decimals i d = Returned tt d'
    /\ Catalog.partial granularity (i + 1) d'.
Proof.
  intros Hi (Hmem & Hlen). unfold Battery.add_levels.
  rewrite (bind_returned _ _ _ _ _ (granularity_divides _ d)).
  assert (Hfresh1 : Dict.mem d i = false).
  { apply (mem_false_iff _ _ _ (Hmem i)). lia. }
  erewrite bind_returned by (apply add_action_new; exact Hfresh1).
  cbn [Action.idx].
  set (d1 := Dict.set d i _).
  rewrite (bind_returned _ _ _ _ _ (granularity_divides _ d1)).
  assert (Hfresh2 : Dict.mem d1 (granularity + 1 + i) = false).
  { unfold d1. rewrite mem_set. apply orb_false_iff. split.
    - apply Z.eqb_neq. lia.
    - apply (mem_false_iff _ _ _ (Hmem _)). lia. }
  rewrite add_action_new by exact Hfresh2. cbn [Action.idx].
  eexists. split; [reflexivity|]. split.
  - intro k. rewrite mem_set. unfold d1. rewrite mem_set.
    rewrite !orb_true_iff, !Z.eqb_eq, Hmem. lia.
  - rewrite len_set_new by exact Hfresh2.
    unfold d1. rewrite len_set_new by exact Hfresh1. lia.
Qed.

Lemma for_each_levels_partial (n : nat) :
  forall (start : nat) (d : Dict.t Action.t),
    (Z.of_nat start + Z.of_nat n = granularity)%Z ->
    Catalog.partial granularity (Z.of_nat start) d ->
    exists d',
      for_each (List.map (fun k => (0 + Z.of_nat k)%Z) (seq start n))
               (Battery.add_levels max_power granularity decimals) d
      = Returned tt d'
      /\ Catalog.partial granularity granularity d'.
Proof.
  induction n as [|n IH]; intros start d Hsum Hpart.
  - exists d. split; [reflexivity|].
    replace granularity with (Z.of_nat start) at 2 by lia. exact Hpart.
  - simpl.
    destruct (add_levels_partial (Z.of_nat start) d) as (d1 & Hrun & Hp1);
      [lia | exact Hpart |].
    rewrite (bind_returned _ _ _ _ _ Hrun).
    apply IH; [lia|].
    replace (Z.of_nat (S start)) with (Z.of_nat start + 1)%Z by lia.
    exact Hp1.
Qed.

End BatteryCatalog.

Lemma partial_complete_dense {V} (g : Z) (d : Dict.t V) :
  (0 < g)%Z -> Catalog.partial g g d -> Catalog.dense d.
Proof.
  intros Hg (Hmem & Hlen) k. rewrite Hmem, Hlen. lia.
Qed.

(** The constructor succeeds for a positive granularity and a positive
    maximum power, and its catalog has the keys [0 .. 2 * granularity]. *)
Lemma build_actions_dense (max_power : Q) (granularity : Z) :
  (0 < granularity)%Z -> 0 < max_power ->
  exists d,
    Battery.build_actions max_power granularity Dict.empty = Returned tt d
    /\ Catalog.dense d
    /\ Dict.len d = (2 * granularity + 1)%Z.
Proof.
  intros Hg Hp. unfold Battery.build_actions, Battery.decimals.
  assert (Hg' : (granularity <=? 0)%Z = false) by (apply Z.leb_gt; exact Hg).
  assert (Hp' : Qle_bool max_power 0 = false) by (apply Qle_bool_false; exact Hp).
  unfold bind at 1. rewrite Hg', Hp'. unfold ret at 1.
  rewrite (bind_returned _ _ _ _ _
             (add_action_new Dict.empty _ eq_refl)).
  cbn [Action.idx Dict.set Dict.empty].
  unfold Py.range. rewrite Z.sub_0_r.
  edestruct (for_each_levels_partial max_power granularity)
    as (d & Hrun & Hpart); [exact Hg | | | ].
  3: { exists d. split; [exact Hrun|]. split.
       - exact (partial_complete_dense _ _ Hg Hpart).
       - destruct Hpart as (_ & ->). lia. }
  - simpl. lia.
  - split.
    + intro k. unfold Dict.mem. simpl.
      destruct (k =? granularity)%Z eqn:E.
      * apply Z.eqb_eq in E. split; [left; exact E | reflexivity].
      * apply Z.eqb_neq in E. split; [discriminate | lia].
    + reflexivity.
Qed.

Lemma init_dense (capacity max_power : Q) (granularity : Z)
    (initial_charge eta_c eta_d r a : Q) :
  (0 < granularity)%Z -> 0 < max_power ->
  exists b,
    Battery.init capacity max_power granularity initial_charge eta_c eta_d r a
    = inr b
    /\ Catalog.dense (Battery.actions b)
    /\ Battery.charge b == initial_charge * 3600000
    /\ Battery.capacity b == capacity * 3600000.
Proof.
  intros Hg Hp. unfold Battery.init.
  destruct (build_actions_dense max_power granularity Hg Hp)
    as (d & -> & Hdense & _).
  eexists. split; [reflexivity|]. split; [exact Hdense|].
  split; simpl; ring.
Qed.

(* ================================================================== *)
(** ** Battery: the feasible band *)

Lemma in_range (n k : Z) : In k (Py.range 0 n) <-> (0 <= k < n)%Z.
Proof.
  unfold Py.range. rewrite in_map_iff. split.
  - intros (j & <- & Hj). apply in_seq in Hj. lia.
  - intro H. exists (Z.to_nat k). split; [lia|]. apply in_seq. lia.
Qed.

Lemma range_sorted (n : Z) : StronglySorted Z.lt (Py.range 0 n).
Proof.
  unfold Py.range. generalize (Z.to_nat (n - 0)) as len.
  generalize 0%nat as start. intros start len. revert start.
  induction len as [|len IH]; intro start; simpl; constructor.
  - apply IH.
  - apply Forall_forall. intros k Hk. apply in_map_iff in Hk.
    destruct Hk as (j & <- & Hj). apply in_seq in Hj. lia.
Qed.

Lemma filter_sorted {A} (R : A -> A -> Prop) (f : A -> bool) (l : list A) :
  StronglySorted R l -> StronglySorted R (List.filter f l).
Proof.
  induction 1 as [|x l Hs IH Hall]; simpl; [constructor|].
  destruct (f x); [|exact IH].
  constructor; [exact IH|].
  apply Forall_forall. intros y Hy. apply filter_In in Hy.
  rewrite Forall_forall in Hall. apply Hall, Hy.
Qed.

Lemma mem_lookup {V} (d : Dict.t V) (k : Z) :
  Dict.mem d k = true <-> exists v, Dict.lookup d k = Some v.
Proof.
  unfold Dict.mem. destruct (Dict.lookup d k) as [v|].
  - split; [exists v; reflexivity | reflexivity].
  - split; [discriminate | intros (v & H); discriminate].
Qed.

(** Over indexes that are all registered, the loop is a filter. *)
Lemma feasible_loop_filter (b : Battery.t) (max_power min_power : Q)
    (idxs : list Z) :
  (forall idx, In idx idxs -> Dict.mem (Battery.actions b) idx = true) ->
  forall acc,
    Battery.feasible_loop idxs max_power min_power acc b
    = Returned
        (acc ++ List.filter
                  (Band.within (Battery.actions b) max_power min_power) idxs)
        b.
Proof.
  induction idxs as [|idx idxs IH]; intros Hreg acc.
  - simpl. rewrite app_nil_r. reflexivity.
  - destruct (proj1 (mem_lookup _ _) (Hreg idx (or_introl eq_refl)))
      as (a & Ha).
    simpl. unfold bind at 1, get at 1.
    rewrite (bind_returned _ _ _ _ _ (getitem_returns _ _ _ b Ha)).
    unfold Band.within at 1. rewrite Ha.
    destruct (Qle_bool (Action.el_power a * 1000) max_power
              && Qle_bool min_power (Action.el_power a * 1000)).
    + rewrite IH by (intros; apply Hreg; right; assumption).
      rewrite <- app_assoc. reflexivity.
    + apply IH. intros; apply Hreg; right; assumption.
Qed.

(** C5.  For a battery with the catalog keys [0 .. len - 1] that its
    constructor builds, efficiencies in (0,1], a relative loss in [0,1)
    and a tick of positive length, the query returns, leaves the battery
    as it is, and its result lists in ascending order exactly the catalog
    indexes whose electrical power in W lies in [min_power, max_power],
    both bounds as the specification gives them. *)
Theorem battery_feasible_band (b : Battery.t) (delta_time : Q) :
  Catalog.dense (Battery.actions b) ->
  0 < Battery.charging_efficiency b <= 1 ->
  0 < Battery.discharging_efficiency b <= 1 ->
  0 <= Battery.relative_loss_per_tick b < 1 ->
  0 < delta_time ->
  let r := Battery.relative_loss_per_tick b in
  let a := Battery.absolute_loss_per_tick b in
  let max_power :=
    (Battery.capacity b * (1 + r / 2) - Battery.charge b * (1 - r / 2) + a)
    / Battery.charging_efficiency b / delta_time in
  let min_power :=
    (0 - Battery.charge b * (1 - r / 2) + a)
    * Battery.discharging_efficiency b / delta_time in
  exists idxs,
    Battery.get_feasible_action_idxs delta_time b = Returned idxs b
    /\ StronglySorted Z.lt idxs
    /\ forall idx,
         In idx idxs <->
         exists act,
           Dict.lookup (Battery.actions b) idx = Some act
           /\ min_power <= Action.el_power act * 1000
           /\ Action.el_power act * 1000 <= max_power.
Proof.
  intros Hdense (Hc & _) _ _ Hdt r a max_power min_power.
  unfold Battery.get_feasible_action_idxs.
  rewrite (bind_returned _ _ b b b) by reflexivity.
  erewrite bind_returned by (apply div_returns; lra).
  erewrite bind_returned by (apply div_returns; lra).
  erewrite bind_returned by (apply div_returns; lra).
  fold r a. fold max_power. fold min_power.
  rewrite feasible_loop_filter
    by (intros idx Hin; apply Hdense, in_range, Hin).
  eexists. split; [reflexivity|]. split.
  - apply filter_sorted, range_sorted.
  - intro idx. simpl. rewrite filter_In, in_range, <- (Hdense idx).
    unfold Band.within. rewrite mem_lookup. split.
    + intros ((act & Hact) & Hin). rewrite Hact in Hin.
      exists act. reflect_cmp. repeat split; assumption.
    + intros (act & Hact & Hlo & Hhi). split; [exists act; exact Hact|].
      rewrite Hact. apply andb_true_iff. split; apply Qle_bool_iff; assumption.
Qed.

(** The scenario battery and a tick of one hour. *)
Lemma battery_feasible_band_witness :
  exists b idxs,
    Scenario.battery = inr b
    /\ Battery.get_feasible_action_idxs 3600 b = Returned idxs b
    /\ StronglySorted Z.lt idxs.
Proof.
  pose (b := Battery.make [(1%Z, Action.make 1 0 0 []);
                           (0%Z, Action.make 0 (-5) 0 []);
                           (2%Z, Action.make 2 5 0 [])]
                          36000000 1 1 0 0 18000000).
  destruct (battery_feasible_band b 3600)
    as (idxs & Hrun & Hsorted & _).
  - intro k. unfold Dict.mem, Dict.len. simpl.
    destruct (k =? 1)%Z eqn:E1; [apply Z.eqb_eq in E1; lia|].
    destruct (k =? 0)%Z eqn:E0; [apply Z.eqb_eq in E0; lia|].
    destruct (k =? 2)%Z eqn:E2; [apply Z.eqb_eq in E2; lia|].
    apply Z.eqb_neq in E1, E0, E2. split; [discriminate | lia].
  - split; [reflexivity | discriminate].
  - split; [reflexivity | discriminate].
  - split; [discriminate | reflexivity].
  - reflexivity.
  - exists b, idxs. split; [reflexivity|]. split; assumption.
Defined.

(** C8.  The battery of the scenario (10 kWh, 5 kW, granularity 1,
    5 kWh, no losses) is built without error; its catalog holds -5 kW at
    idx 0, idle at idx 1 and +5 kW at idx 2; a tick of 3600 s has all
    three feasible; and charging with +5 kW for that tick returns and
    leaves the charge at 10 kWh, which is the capacity. *)
Theorem battery_scenario_reaches_capacity :
  exists b minus idle plus,
    Scenario.battery = inr b
    /\ (exists a, Dict.lookup (Battery.actions b) minus = Some a
                  /\ Action.el_power a == -5)
    /\ (exists a, Dict.lookup (Battery.actions b) idle = Some a
                  /\ Action.el_power a == 0)
    /\ (exists a, Dict.lookup (Battery.actions b) plus = Some a
                  /\ Action.el_power a == 5)
    /\ (exists idxs,
          Battery.get_feasible_action_idxs 3600 b = Returned idxs b
          /\ In idle idxs /\ In plus idxs /\ In minus idxs)
    /\ (exists out b',
          Battery.state_transition 3600 (Some plus) None b = Returned out b'
          /\ Interaction.el_power out == 5
          /\ Battery.charge b' == 10 * 1000 * 60 * 60
          /\ Battery.charge b' == Battery.capacity b').
Proof.
  eexists. exists 0%Z, 1%Z, 2%Z.
  split; [reflexivity|].
  split; [eexists; split; reflexivity|].
  split; [eexists; split; reflexivity|].
  split; [eexists; split; reflexivity|].
  split.
  - eexists. split; [vm_compute; reflexivity|]. simpl. tauto.
  - eexists. eexists. split; [vm_compute; reflexivity|].
    repeat split; reflexivity.
Qed.

(* ================================================================== *)
(** ** Heat storage: clipping a request *)

Ltac tank_fields :=
  cbn [HeatStorage.capacity HeatStorage.charging_efficiency
       HeatStorage.discharging_efficiency HeatStorage.relative_loss_per_tick
       HeatStorage.absolute_loss_per_tick HeatStorage.charge
       HeatStorage.with_charge Interaction.el_power Interaction.th_power
       Interaction.extra Interaction.new fst snd] in *.

Ltac split_cmp :=
  repeat match goal with
    | |- context [Py.Qlt_bool ?x ?y] =>
        let E := fresh "E" in destruct (Py.Qlt_bool x y) eqn:E
    end.

Lemma scaled_positive (x dt : Q) : 0 < x -> 0 < dt -> 0 < x / 1000 / dt.
Proof.
  intros Hx Hdt. unfold Qdiv.
  apply Qmult_lt_0_compat; [|apply Qinv_lt_0_compat; exact Hdt].
  apply Qmult_lt_0_compat; [exact Hx | reflexivity].
Qed.

(** The sign of what is handed back: against an excess, negative. *)
Lemma leftover_negative (x dt : Q) : 0 < x -> 0 < dt -> - x / 1000 / dt < 0.
Proof.
  intros Hx Hdt. pose proof (scaled_positive x dt Hx Hdt) as H.
  assert (E : - x / 1000 / dt == - (x / 1000 / dt)) by (unfold Qdiv; ring).
  rewrite E. lra.
Qed.

Lemma leftover_positive (x dt : Q) : x < 0 -> 0 < dt -> 0 < - x / 1000 / dt.
Proof.
  intros Hx Hdt. apply scaled_positive; lra.
Qed.

(** After the comparisons of a branch have been turned into facts:
    take the statement apart and settle each arithmetic leaf. *)
Ltac clip_leaves :=
  repeat match goal with
    | |- _ /\ _ => split
    | |- _ -> _ => intro
    | H : _ \/ _ |- _ => destruct H
    | H : _ /\ _ |- _ => destruct H
    end;
  try solve [ qlra | unfold Qdiv; ring | exfalso; qlra
            | apply leftover_negative; lra
            | apply leftover_positive; lra ].

Ltac pick_update :=
  eexists; split; [|reflexivity];
  first [ left; split; [qlra | reflexivity]
        | right; left; split; [qlra | reflexivity]
        | right; right; split; [qlra | reflexivity] ].

(** C6.  For a storage with positive efficiencies and a non-negative
    relative loss, a tick of positive length and a supplied interaction,
    let the request be minus its thermal power times the tick, in Ws.
    The call returns, passes the electrical power on, and writes only the
    charge.  A charging request above what is storable is accepted up to
    that amount and the returned thermal power is minus the excess,
    converted back to kW, so it has the sign of the supplied power; a
    discharging request beyond what is extractable likewise; a request
    within these limits is accepted whole and the returned thermal power
    is zero.  The charge is updated by the symmetric-loss formula with
    the accepted energy. *)
Theorem heat_storage_clips_request
    (h : HeatStorage.t) (delta_time : Q) (action_idx : option Z)
    (env : Interaction.t) :
  0 < delta_time ->
  0 < HeatStorage.charging_efficiency h ->
  0 < HeatStorage.discharging_efficiency h ->
  0 <= HeatStorage.relative_loss_per_tick h ->
  let request := - Interaction.th_power env * delta_time * 1000 in
  exists out h' accepted,
    HeatStorage.state_transition delta_time action_idx (Some env) h
    = Returned out h'
    /\ h' = HeatStorage.with_charge h (HeatStorage.charge h')
    /\ Interaction.el_power out = Interaction.el_power env
    /\ (0 < request -> Tank.storable h < request ->
        accepted == Tank.storable h
        /\ Interaction.th_power out
           == - ((request - Tank.storable h) / 1000 / delta_time)
        /\ Interaction.th_power out < 0)
    /\ (request < 0 -> request < Tank.extractable h ->
        accepted == Tank.extractable h
        /\ Interaction.th_power out
           == - ((request - Tank.extractable h) / 1000 / delta_time)
        /\ 0 < Interaction.th_power out)
    /\ ((0 < request /\ request <= Tank.storable h)
        \/ (request < 0 /\ Tank.extractable h <= request)
        \/ request == 0 ->
        accepted == request /\ Interaction.th_power out == 0)
    /\ Tank.updated h accepted (HeatStorage.charge h').
Proof.
  intros Hdt Hc Hd Hr request.
  assert (Ht : Qeq_bool delta_time 0 = false) by (apply Qeq_bool_false; lra).
  assert (Hec : Qeq_bool (HeatStorage.charging_efficiency h) 0 = false)
    by (apply Qeq_bool_false; lra).
  assert (Hed : Qeq_bool (HeatStorage.discharging_efficiency h) 0 = false)
    by (apply Qeq_bool_false; lra).
  assert (Hl : Qeq_bool (1 + HeatStorage.relative_loss_per_tick h / 2) 0
               = false) by (apply Qeq_bool_false; qlra).
  assert (Hinv : 0 < / delta_time) by (apply Qinv_lt_0_compat; exact Hdt).
  unfold Tank.updated, Tank.storable, Tank.extractable.
  destruct h as [cap ec ed r a c]. tank_fields.
  unfold HeatStorage.state_transition, Py.max, Py.min, div,
    bind, get, put, ret, raise.
  tank_fields. fold request. rewrite Hl, Ht.
  destruct (Py.Qlt_bool 0 request) eqn:Epos;
    [| destruct (Py.Qlt_bool request 0) eqn:Eneg];
    rewrite ?Hec; tank_fields.
  - set (storable := (cap * (1 + r / 2) - c * (1 - r / 2) + a) / ec) in *.
    destruct (Py.Qlt_bool 0 (request - storable)) eqn:Eover;
      set (accepted := request - _);
      destruct (Py.Qlt_bool 0 accepted) eqn:Ea;
      [| destruct (Py.Qlt_bool accepted 0) eqn:Eb; rewrite ?Hed
       | | destruct (Py.Qlt_bool accepted 0) eqn:Eb; rewrite ?Hed ];
      clear Ht Hec Hed Hl; reflect_cmp;
      (eexists; eexists; exists accepted;
       split; [reflexivity|]; split; [reflexivity|]; split; [reflexivity|];
       tank_fields; subst accepted); clip_leaves; pick_update.
  - set (extractable := (0 - c * (1 - r / 2) + a) * ed) in *.
    destruct (Py.Qlt_bool (request - extractable) 0) eqn:Eover;
      set (accepted := request - _);
      destruct (Py.Qlt_bool 0 accepted) eqn:Ea;
      [| destruct (Py.Qlt_bool accepted 0) eqn:Eb; rewrite ?Hed
       | | destruct (Py.Qlt_bool accepted 0) eqn:Eb; rewrite ?Hed ];
      clear Ht Hec Hed Hl; reflect_cmp;
      (eexists; eexists; exists accepted;
       split; [reflexivity|]; split; [reflexivity|]; split; [reflexivity|];
       tank_fields; subst accepted); clip_leaves; pick_update.
  - change (Py.Qlt_bool 0 0) with false. cbv iota.
    clear Ht Hec Hed Hl; reflect_cmp.
    assert (E : request == 0) by lra.
    eexists. eexists. exists 0.
    split; [reflexivity|]. split; [reflexivity|]. split; [reflexivity|].
    tank_fields. clearbody request. clip_leaves.
    + unfold Qdiv. rewrite E. ring.
    + exists 0. split; [right; right; split; reflexivity | reflexivity].
Qed.

(** The tank of the scenario at 2 kWh, asked for 3 kW of heat over an
    hour: it can give 2 kWh, so 1 kW is handed back. *)
Lemma heat_storage_clips_request_witness :
  exists out h',
    HeatStorage.state_transition 3600 None (Some (Interaction.new 0 3))
                                 Scenario.tank
    = Returned out h'
    /\ Interaction.th_power out == 1
    /\ HeatStorage.charge h' == 0.
Proof.
  destruct (heat_storage_clips_request Scenario.tank 3600 None
              (Interaction.new 0 3))
    as (out & h' & accepted & Hrun & _ & _ & _ & Hover & _ & Hupd);
    try reflexivity; try discriminate.
  exists out, h'. split; [exact Hrun|].
  destruct Hover as (Hacc & Hth & _); try reflexivity.
  split.
  - rewrite Hth. reflexivity.
  - destruct Hupd as (delta_c & Hdelta & ->).
    rewrite Hacc in Hdelta.
    destruct Hdelta as [(Hpos & _) | [(_ & ->) | (Hzero & _)]].
    + discriminate Hpos.
    + reflexivity.
    + discriminate Hzero.
Defined.

(* ================================================================== *)
(** ** Heat storage: filtering the actions of another system *)

Lemma lookup_set {V} (d : Dict.t V) (k k' : Z) (v : V) :
  Dict.lookup (Dict.set d k v) k'
  = if (k' =? k)%Z then Some v else Dict.lookup d k'.
Proof.
  induction d as [|[k0 v0] d IH]; simpl.
  - reflexivity.
  - destruct (k =? k0)%Z eqn:E; simpl.
    + apply Z.eqb_eq in E. subst k0.
      destruct (k' =? k)%Z; reflexivity.
    + destruct (k' =? k0)%Z eqn:E'.
      * apply Z.eqb_eq in E'. subst k0.
        rewrite Z.eqb_sym, E. reflexivity.
      * exact IH.
Qed.

Lemma in_keys_mem {V} (d : Dict.t V) (k : Z) :
  In k (Dict.keys d) <-> Dict.mem d k = true.
Proof.
  unfold Dict.keys, Dict.mem. induction d as [|[k0 v0] d IH]; simpl.
  - split; [contradiction | discriminate].
  - destruct (k =? k0)%Z eqn:E.
    + apply Z.eqb_eq in E. split; [reflexivity | left; congruence].
    + apply Z.eqb_neq in E. rewrite <- IH. split; [|right; assumption].
      intros [H|H]; [congruence | exact H].
Qed.

Section HeatStorageFilter.

Variable h : HeatStorage.t.
Variable function : Action.t -> Q.
Variable action_map : Dict.t Action.t.
Variables min_charge max_charge max_power min_power : Q.

Local Abbreviation kept a :=
  (HeatStorage.keeps h min_charge max_charge max_power min_power
                     (function a)).

(** The loop never writes the storage, and fills the result with the
    kept actions of the indexes it walks. *)
Lemma filter_loop_selects (idxs : list Z) :
  (forall idx, In idx idxs -> Dict.mem action_map idx = true) ->
  forall acc,
    (forall k a, Dict.lookup acc k = Some a ->
                 Dict.lookup action_map k = Some a /\ kept a = true) ->
    exists result,
      HeatStorage.filter_loop function action_map idxs
        min_charge max_charge max_power min_power acc h
      = Returned result h
      /\ forall k a,
           Dict.lookup result k = Some a <->
           Dict.lookup acc k = Some a
           \/ (In k idxs /\ Dict.lookup action_map k = Some a
               /\ kept a = true).
Proof.
  induction idxs as [|idx idxs IH]; intros Hreg acc Hacc.
  - exists acc. split; [reflexivity|]. intros k a. simpl. tauto.
  - destruct (proj1 (mem_lookup _ _) (Hreg idx (or_introl eq_refl)))
      as (a0 & Ha0).
    simpl. unfold bind at 1, get at 1.
    rewrite (bind_returned _ _ _ _ _ (getitem_returns _ _ _ h Ha0)).
    fold (kept a0). destruct (kept a0) eqn:Ekept.
    + destruct (IH (fun i Hi => Hreg i (or_intror Hi))
                   (Dict.set acc idx a0))
        as (result & Hrun & Hres).
      { intros k a. rewrite lookup_set.
        destruct (k =? idx)%Z eqn:E.
        - apply Z.eqb_eq in E. subst k. intro H. injection H as <-.
          split; assumption.
        - apply Hacc. }
      exists result. split; [exact Hrun|].
      intros k a. rewrite Hres, lookup_set.
      destruct (k =? idx)%Z eqn:E.
      * apply Z.eqb_eq in E. subst k. split.
        -- intros [H | (_ & Hm & Hk)].
           ++ injection H as <-. right. repeat split; auto.
           ++ right. repeat split; auto.
        -- intros [H | (_ & Hm & Hk)]; left.
           ++ apply Hacc in H. destruct H as (H & _). congruence.
           ++ congruence.
      * apply Z.eqb_neq in E. split.
        -- intros [H | (Hin & Hm & Hk)]; [left; exact H|].
           right. repeat split; auto.
        -- intros [H | ([Hin|Hin] & Hm & Hk)]; [left; exact H | |].
           ++ congruence.
           ++ right. repeat split; auto.
    + destruct (IH (fun i Hi => Hreg i (or_intror Hi)) acc Hacc)
        as (result & Hrun & Hres).
      exists result. split; [exact Hrun|].
      intros k a. rewrite Hres. split.
      * intros [H | (Hin & Hm & Hk)]; [left; exact H|].
        right. repeat split; auto.
      * intros [H | ([Hin|Hin] & Hm & Hk)]; [left; exact H | |].
        -- subst k. rewrite Ha0 in Hm. injection Hm as <-. congruence.
        -- right. repeat split; auto.
Qed.

End HeatStorageFilter.

(** What the branches of the loop body decide. *)
Lemma keeps_true_iff (h : HeatStorage.t)
    (min_charge max_charge max_power min_power thermal_power : Q) :
  HeatStorage.keeps h min_charge max_charge max_power min_power
                    thermal_power = true
  <->
  ~ (HeatStorage.charge h < min_charge /\ thermal_power <= 0)
  /\ ~ (HeatStorage.charge h == min_charge /\ thermal_power < 0)
  /\ ~ (max_charge <= HeatStorage.charge h /\ 0 < thermal_power)
  /\ min_power <= thermal_power * 1000
  /\ thermal_power * 1000 <= max_power.
Proof.
  unfold HeatStorage.keeps.
  destruct (Py.Qlt_bool (HeatStorage.charge h) min_charge) eqn:E1;
  destruct (Qle_bool thermal_power 0) eqn:E2;
  destruct (Qeq_bool (HeatStorage.charge h) min_charge) eqn:E3;
  destruct (Py.Qlt_bool thermal_power 0) eqn:E4;
  destruct (Qle_bool max_charge (HeatStorage.charge h)) eqn:E5;
  destruct (Py.Qlt_bool 0 thermal_power) eqn:E6;
  destruct (Qle_bool (thermal_power * 1000) max_power) eqn:E7;
  destruct (Qle_bool min_power (thermal_power * 1000)) eqn:E8;
  cbn [andb]; reflect_cmp;
  (split; [intro H; try discriminate H; repeat split; try assumption;
           try (intros (? & ?); lra)
          | intros (N1 & N2 & N3 & B1 & B2); try reflexivity; exfalso;
            first [ apply N1; split; lra | apply N2; split; lra
                  | apply N3; split; lra | lra ] ]).
Qed.

(** C7, as stated, fails where the charge is exactly at [min_soc]: the
    scenario tank holds 2 kWh of 10 and [min_soc] is 1/5; the heater's
    "off" action projects to 0 kW, the specification drops it, the code
    keeps it. *)
Lemma filter_keeps_zero_power_at_min_soc :
  exists result off,
    HeatStorage.filter_actions Action.th_power Scenario.heater
                               3600 (1 # 5) (4 # 5) Scenario.tank
    = Returned result Scenario.tank
    /\ Dict.lookup result 0 = Some off
    /\ Action.th_power off <= 0
    /\ HeatStorage.charge Scenario.tank
       <= HeatStorage.capacity Scenario.tank * (1 # 5)
    /\ ~ Filter.selects
           (Filter.as_specified Scenario.tank 3600 (1 # 5) (4 # 5))
           Action.th_power Scenario.heater result.
Proof.
  eexists. eexists. split; [vm_compute; reflexivity|].
  split; [reflexivity|]. split; [discriminate|]. split; [discriminate|].
  intro Hsel. destruct (proj1 (Hsel 0%Z _) eq_refl) as (_ & Hdrop & _).
  apply Hdrop. split; discriminate.
Qed.

(** C7, amended.  For a storage with a positive charging efficiency and
    a tick of positive length, [filter_actions] returns, leaves the
    storage exactly as it was, and its result is the sub-mapping of the
    candidates from which these are dropped: every action projecting to
    [<= 0] when the charge is strictly below [capacity * min_soc], every
    action projecting to [< 0] when the charge equals
    [capacity * min_soc], every action projecting to [> 0] when the
    charge is at or above [capacity * max_soc], and every action whose
    projected power in W is outside the band of the tick. *)
Theorem filter_actions_selects
    (h : HeatStorage.t) (function : Action.t -> Q)
    (action_map : Dict.t Action.t) (delta_time min_soc max_soc : Q) :
  0 < delta_time ->
  0 < HeatStorage.charging_efficiency h ->
  min_soc <= max_soc ->
  exists result,
    HeatStorage.filter_actions function action_map delta_time
                               min_soc max_soc h
    = Returned result h
    /\ Filter.selects (Filter.as_amended h delta_time min_soc max_soc)
                      function action_map result.
Proof.
  intros Hdt Hc _. unfold HeatStorage.filter_actions.
  rewrite (bind_returned _ _ h h h) by reflexivity.
  erewrite bind_returned by (apply div_returns; lra).
  erewrite bind_returned by (apply div_returns; lra).
  erewrite bind_returned by (apply div_returns; lra).
  edestruct (filter_loop_selects h function action_map)
    as (result & Hrun & Hres);
    [ intros idx Hin; apply in_keys_mem; exact Hin
    | | exists result; split; [exact Hrun|] ].
  - intros k a H. discriminate H.
  - intros idx a. rewrite Hres. rewrite keeps_true_iff.
    unfold Filter.as_amended, Filter.in_band, Tank.storable,
      Tank.extractable.
    split.
    + intros [H | (_ & Hm & Hk)]; [discriminate H|].
      split; [exact Hm|]. tauto.
    + intros (Hm & Hk). right. split; [|split; [exact Hm | tauto]].
      apply in_keys_mem, mem_lookup. exists a. exact Hm.
Qed.

(** The scenario tank and heater: both actions pass. *)
Lemma filter_actions_selects_witness :
  exists result,
    HeatStorage.filter_actions Action.th_power Scenario.heater
                               3600 (1 # 5) (4 # 5) Scenario.tank
    = Returned result Scenario.tank
    /\ Filter.selects
         (Filter.as_amended Scenario.tank 3600 (1 # 5) (4 # 5))
         Action.th_power Scenario.heater result.
Proof.
  apply (filter_actions_selects Scenario.tank Action.th_power
           Scenario.heater 3600 (1 # 5) (4 # 5)).
  - reflexivity.
  - reflexivity.
  - discriminate.
Defined.

(* ================================================================== *)
(** ** The action registry *)

Lemma set_new_appends {V} (d : Dict.t V) (k : Z) (v : V) :
  Dict.mem d k = false -> Dict.set d k v = d ++ [(k, v)].
Proof.
  unfold Dict.mem. induction d as [|[k0 v0] d IH]; simpl; intro H.
  - reflexivity.
  - destruct (k =? k0)%Z; [discriminate|].
    rewrite IH by exact H. reflexivity.
Qed.

(** X1.  [add_action] either refuses or registers.  When the idx is
    already in the catalog it raises [ValueError] and the catalog is
    untouched.  Otherwise it returns, the new action is found under its
    idx, every other idx maps to what it mapped to before, and the new
    key is the last one in iteration order. *)
Theorem add_action_registers_or_refuses (d : Dict.t Action.t) (a : Action.t) :
  match AbstractSystem.add_action a d with
  | Raised e d' =>
      e = ValueError /\ d' = d /\ Dict.mem d (Action.idx a) = true
  | Returned _ d' =>
      Dict.mem d (Action.idx a) = false
      /\ Dict.lookup d' (Action.idx a) = Some a
      /\ (forall k, k <> Action.idx a -> Dict.lookup d' k = Dict.lookup d k)
      /\ Dict.keys d' = Dict.keys d ++ [Action.idx a]
      /\ Dict.len d' = (Dict.len d + 1)%Z
  end.
Proof.
  destruct (Dict.mem d (Action.idx a)) eqn:E.
  - rewrite add_action_duplicate by exact E. repeat split. 
  - rewrite add_action_new by exact E.
    split; [reflexivity|]. split; [|split; [|split]].
    + rewrite lookup_set, Z.eqb_refl. reflexivity.
    + intros k Hk. rewrite lookup_set.
      apply Z.eqb_neq in Hk. rewrite Hk. reflexivity.
    + rewrite set_new_appends by exact E.
      unfold Dict.keys. rewrite map_app. reflexivity.
    + apply len_set_new, E.
Qed.

(** The dictionary comprehension of [get_actions_by_idxs], started from
    entries that are already taken from the catalog. *)
Lemma comprehension_selects (d : Dict.t Action.t) (idxs : list Z) :
  (forall k, In k idxs -> Dict.mem d k = true) ->
  forall acc,
    (forall k a, Dict.lookup acc k = Some a -> Dict.lookup d k = Some a) ->
    exists result,
      AbstractSystem.comprehension acc idxs d = Returned result d
      /\ forall k a,
           Dict.lookup result k = Some a <->
           Dict.lookup acc k = Some a
           \/ (In k idxs /\ Dict.lookup d k = Some a).
Proof.
  induction idxs as [|i idxs IH]; intros Hreg acc Hacc.
  - exists acc. split; [reflexivity|]. intros k a. simpl. tauto.
  - destruct (proj1 (mem_lookup _ _) (Hreg i (or_introl eq_refl)))
      as (a0 & Ha0).
    simpl. unfold bind at 1, get at 1.
    rewrite (bind_returned _ _ _ _ _ (getitem_returns _ _ _ d Ha0)).
    destruct (IH (fun k Hk => Hreg k (or_intror Hk)) (Dict.set acc i a0))
      as (result & Hrun & Hres).
    { intros k a. rewrite lookup_set. destruct (k =? i)%Z eqn:E.
      - apply Z.eqb_eq in E. subst k. congruence.
      - apply Hacc. }
    exists result. split; [exact Hrun|].
    intros k a. rewrite Hres, lookup_set.
    destruct (k =? i)%Z eqn:E.
    + apply Z.eqb_eq in E. subst k. split.
      * intros [H | (_ & H)]; right; (split; [left; reflexivity|]);
          congruence.
      * intros [H | (_ & H)]; left; [apply Hacc in H|]; congruence.
    + apply Z.eqb_neq in E. split.
      * intros [H | (Hin & H)]; [left; exact H|].
        right. split; [right; exact Hin | exact H].
      * intros [H | ([Hin|Hin] & H)]; [left; exact H | congruence |].
        right. split; assumption.
Qed.

Lemma comprehension_missing (d : Dict.t Action.t) (idxs : list Z) :
  (exists k, In k idxs /\ Dict.mem d k = false) ->
  forall acc, AbstractSystem.comprehension acc idxs d = Raised KeyError d.
Proof.
  induction idxs as [|i idxs IH]; intros (k & Hin & Hk) acc.
  - contradiction.
  - simpl. unfold bind at 1, get at 1.
    destruct (Dict.lookup d i) as [a0|] eqn:Ei.
    + rewrite (bind_returned _ _ _ _ _ (getitem_returns _ _ _ d Ei)).
      apply IH. exists k. split; [|exact Hk].
      destruct Hin as [<-|Hin]; [|exact Hin].
      unfold Dict.mem in Hk. rewrite Ei in Hk. discriminate.
    + apply bind_raised, getitem_raises, Ei.
Qed.

(** X2.  [get_actions_by_idxs] never writes the catalog.  It returns
    exactly when every requested idx is registered, and then the result
    maps an idx to an action if and only if the idx was requested and the
    catalog maps it to that action; if any requested idx is missing it
    raises [KeyError]. *)
Theorem get_actions_by_idxs_outcome (d : Dict.t Action.t) (idxs : list Z) :
  match AbstractSystem.get_actions_by_idxs idxs d with
  | Returned result d' =>
      d' = d
      /\ (forall k, In k idxs -> Dict.mem d k = true)
      /\ forall k a,
           Dict.lookup result k = Some a <->
           In k idxs /\ Dict.lookup d k = Some a
  | Raised e d' =>
      e = KeyError /\ d' = d
      /\ exists k, In k idxs /\ Dict.mem d k = false
  end.
Proof.
  unfold AbstractSystem.get_actions_by_idxs.
  destruct (forallb (Dict.mem d) idxs) eqn:E.
  - rewrite forallb_forall in E.
    destruct (comprehension_selects d idxs E Dict.empty)
      as (result & -> & Hres); [intros k a H; discriminate H|].
    split; [reflexivity|]. split; [exact E|].
    intros k a. rewrite Hres. split.
    + intros [H|H]; [discriminate H | exact H].
    + intro H. right. exact H.
  - assert (Hmiss : exists k, In k idxs /\ Dict.mem d k = false).
    { induction idxs as [|i idxs IH]; [discriminate|].
      simpl in E. apply andb_false_iff in E. destruct E as [E|E].
      - exists i. split; [left; reflexivity | exact E].
      - destruct (IH E) as (k & Hin & Hk).
        exists k. split; [right; exact Hin | exact Hk]. }
    rewrite comprehension_missing by exact Hmiss.
    repeat split. exact Hmiss.
Qed.

(* ================================================================== *)
(** ** Battery: what the constructor builds *)

Ltac battery_fields :=
  cbn [Battery.actions Battery.capacity Battery.charging_efficiency
       Battery.discharging_efficiency Battery.relative_loss_per_tick
       Battery.absolute_loss_per_tick Battery.charge Battery.with_charge
       Inherited.with_actions] in *.

Section BatteryLevels.

Variable max_power : Q.
Variable granularity : Z.
Variable decimals : nat.

Hypothesis granularity_positive : (0 < granularity)%Z.




End BatteryLevels.



(** X3.  The constructor raises [ValueError] exactly when the granularity
    or the maximum power is not positive (the logarithm's domain), and
    nothing is built then.  Otherwise the battery has the keys
    [0 .. 2 * granularity], holds capacity and initial charge converted
    from kWh to Ws, and the other parameters as given. *)
Theorem battery_init_outcome (capacity max_power : Q) (granularity : Z)
    (initial_charge eta_c eta_d r a : Q) :
  match Battery.init capacity max_power granularity initial_charge
                     eta_c eta_d r a with
  | inl e => e = ValueError /\ ((granularity <= 0)%Z \/ max_power <= 0)
  | inr b =>
      (0 < granularity)%Z /\ 0 < max_power
      /\ Catalog.dense (Battery.actions b)
      /\ Dict.len (Battery.actions b) = (2 * granularity + 1)%Z
      /\ Battery.capacity b == capacity * 3600000
      /\ Battery.charge b == initial_charge * 3600000
      /\ Battery.charging_efficiency b = eta_c
      /\ Battery.discharging_efficiency b = eta_d
      /\ Battery.relative_loss_per_tick b = r
      /\ Battery.absolute_loss_per_tick b = a
  end.
Proof.
  destruct (Z_lt_le_dec 0 granularity) as [Hg|Hg];
    [destruct (Qlt_le_dec 0 max_power) as [Hp|Hp]|].
  - unfold Battery.init.
    destruct (build_actions_dense max_power granularity Hg Hp)
      as (d & -> & Hdense & Hlen).
    battery_fields.
    split; [exact Hg|]. split; [exact Hp|]. split; [exact Hdense|].
    split; [exact Hlen|]. split; [ring|]. split; [ring|]. repeat split.
  - unfold Battery.init, Battery.build_actions, Battery.decimals.
    assert (Hg' : (granularity <=? 0)%Z = false)
      by (apply Z.leb_gt; exact Hg).
    apply Qle_bool_iff in Hp as Hp'.
    unfold bind at 1. rewrite Hg', Hp'. cbn.
    split; [reflexivity | right; exact Hp].
  - unfold Battery.init, Battery.build_actions, Battery.decimals.
    apply Z.leb_le in Hg as Hg'.
    unfold bind at 1. rewrite Hg'. cbn.
    split; [reflexivity | left; exact Hg].
Qed.





(* ================================================================== *)
(** ** Battery: the discharging levels mirror the charging levels *)




Lemma pow10_positive (d : nat) : 0 < Py.pow10 d.
Proof.
  unfold Py.pow10. rewrite <- (Zlt_Qlt 0). apply Z.pow_pos_nonneg; lia.
Qed.




(* ================================================================== *)
(** ** Battery: feasible actions keep the charge in bounds *)




Lemma retained_below_full (c cap r a : Q) :
  0 <= r -> r < 1 -> 0 <= c -> c <= cap -> 0 <= a ->
  c * (1 - r / 2) - a <= cap * (1 + r / 2).
Proof.
  intros Hr0 Hr1 Hc0 Hc Ha.
  assert (0 <= c * r) by (apply Qmult_le_0_compat; assumption).
  assert (0 <= cap * r) by (apply Qmult_le_0_compat; [lra | assumption]).
  literal_div. nra.
Qed.

(** The query as a filter of [range(0, len)]. *)
Lemma get_feasible_returns_filter (b : Battery.t) (delta_time : Q) :
  Catalog.dense (Battery.actions b) ->
  ~ Battery.charging_efficiency b == 0 ->
  ~ delta_time == 0 ->
  Battery.get_feasible_action_idxs delta_time b
  = Returned
      (List.filter
         (Band.within (Battery.actions b)
            ((Battery.capacity b * (1 + Battery.relative_loss_per_tick b / 2)
              - Battery.charge b * (1 - Battery.relative_loss_per_tick b / 2)
              + Battery.absolute_loss_per_tick b)
             / Battery.charging_efficiency b / delta_time)
            ((0 - Battery.charge b * (1 - Battery.relative_loss_per_tick b / 2)
              + Battery.absolute_loss_per_tick b)
             * Battery.discharging_efficiency b / delta_time))
         (Py.range 0 (Dict.len (Battery.actions b))))
      b.
Proof.
  intros Hdense Hc Hdt. unfold Battery.get_feasible_action_idxs.
  rewrite (bind_returned _ _ b b b) by reflexivity.
  erewrite bind_returned by (apply div_returns; exact Hc).
  erewrite bind_returned by (apply div_returns; exact Hdt).
  erewrite bind_returned by (apply div_returns; exact Hdt).
  rewrite feasible_loop_filter
    by (intros idx Hin; apply Hdense, in_range, Hin).
  reflexivity.
Qed.



(** X7.  Idling is offered: under the same conditions on the battery, an
    action of 0 kW that is in the catalog is in the result of the
    feasibility query, for every tick of positive length. *)
Theorem battery_idle_is_feasible
    (b : Battery.t) (delta_time : Q) (k : Z) (act : Action.t) :
  Catalog.dense (Battery.actions b) ->
  0 < Battery.charging_efficiency b <= 1 ->
  0 < Battery.discharging_efficiency b <= 1 ->
  0 <= Battery.relative_loss_per_tick b < 1 ->
  0 < delta_time ->
  0 <= Battery.charge b <= Battery.capacity b ->
  0 <= Battery.absolute_loss_per_tick b
    <= Battery.charge b * (1 - Battery.relative_loss_per_tick b / 2) ->
  Dict.lookup (Battery.actions b) k = Some act ->
  Action.el_power act == 0 ->
  exists idxs,
    Battery.get_feasible_action_idxs delta_time b = Returned idxs b
    /\ In k idxs.
Proof.
  intros Hdense (Hc & _) (Hd & _) (Hr0 & Hr1) Hdt (Hc0 & Hcap) (Ha0 & Ha)
         Hact Hzero.
  rewrite get_feasible_returns_filter by (assumption || lra).
  eexists. split; [reflexivity|].
  apply filter_In. split.
  - apply in_range, Hdense, mem_lookup. exists act. exact Hact.
  - unfold Band.within. rewrite Hact.
    pose proof (retained_below_full _ _ _ _ Hr0 Hr1 Hc0 Hcap Ha0) as Hret.
    assert (E : Action.el_power act * 1000 == 0) by (rewrite Hzero; ring).
    apply andb_true_iff. split; apply Qle_bool_iff; rewrite E.
    + apply Qle_shift_div_l; [exact Hdt|].
      apply Qle_shift_div_l; [exact Hc|]. lra.
    + apply Qle_shift_div_r; [exact Hdt|].
      assert (0 - Battery.charge b
                  * (1 - Battery.relative_loss_per_tick b / 2)
              + Battery.absolute_loss_per_tick b <= 0) by lra.
      nra.
Qed.

(** The scenario battery: idle is idx 1. *)
Lemma battery_idle_is_feasible_witness :
  exists b idxs,
    Scenario.battery = inr b
    /\ Battery.get_feasible_action_idxs 3600 b = Returned idxs b
    /\ In 1%Z idxs.
Proof.
  pose (b := Battery.make [(1%Z, Action.make 1 0 0 []);
                           (0%Z, Action.make 0 (-5) 0 []);
                           (2%Z, Action.make 2 5 0 [])]
                          36000000 1 1 0 0 18000000).
  destruct (battery_idle_is_feasible b 3600 1 (Action.make 1 0 0 []))
    as (idxs & Hrun & Hin).
  - intro k. unfold Dict.mem, Dict.len. simpl.
    destruct (k =? 1)%Z eqn:E1; [apply Z.eqb_eq in E1; lia|].
    destruct (k =? 0)%Z eqn:E0; [apply Z.eqb_eq in E0; lia|].
    destruct (k =? 2)%Z eqn:E2; [apply Z.eqb_eq in E2; lia|].
    apply Z.eqb_neq in E1, E0, E2. split; [discriminate | lia].
  - split; [reflexivity | discriminate].
  - split; [reflexivity | discriminate].
  - split; [discriminate | reflexivity].
  - reflexivity.
  - split; discriminate.
  - split; discriminate.
  - reflexivity.
  - reflexivity.
  - exists b, idxs. split; [reflexivity|]. split; assumption.
Defined.

(* ================================================================== *)
(** ** Battery: state of charge *)

(** X8.  [set_state] takes kWh and [get_state_of_charge] answers with a
    fraction of the capacity: on a battery built with a capacity of [C]
    kWh, setting the charge to [c] kWh and reading the state of charge
    gives [c / C]; with [C = 0] the reading raises [ZeroDivisionError],
    after the charge has been set. *)
Theorem battery_state_of_charge_round_trip
    (C max_power : Q) (granularity : Z) (initial_charge eta_c eta_d r a : Q)
    (b : Battery.t) (c : Q) :
  Battery.init C max_power granularity initial_charge eta_c eta_d r a
  = inr b ->
  let out := (Battery.set_state c ;;; Battery.get_state_of_charge) b in
  final_state out = Battery.with_charge b (c * 1000 * 60 * 60)
  /\ (~ C == 0 -> exists soc, returned out = Some soc /\ soc == c / C)
  /\ (C == 0 -> raised out = Some ZeroDivisionError).
Proof.
  intros Hinit out.
  assert (Hcap : Battery.capacity b = C * 1000 * 60 * 60).
  { unfold Battery.init in Hinit.
    destruct (Battery.build_actions max_power granularity Dict.empty);
      [|discriminate].
    injection Hinit as <-. reflexivity. }
  subst out.
  unfold Battery.set_state, Battery.get_state_of_charge, div,
    bind, get, put, ret, raise.
  destruct b as [acts cap ec ed r' a' c0]. battery_fields. subst cap.
  destruct (Qeq_bool (C * 1000 * 60 * 60) 0) eqn:E; reflect_cmp.
  - split; [reflexivity|]. split; [|reflexivity].
    intro H. exfalso. apply H. lra.
  - split; [reflexivity|]. split; [|intro H; exfalso; apply E; lra].
    intro H. eexists. split; [reflexivity|]. cbn [returned]. field. exact H.
Qed.

(** The scenario battery set to 2.5 kWh. *)
Lemma battery_state_of_charge_round_trip_witness :
  exists b soc,
    Scenario.battery = inr b
    /\ returned ((Battery.set_state (5 # 2) ;;; Battery.get_state_of_charge) b)
       = Some soc
    /\ soc == 1 # 4.
Proof.
  pose (b := Battery.make [(1%Z, Action.make 1 0 0 []);
                           (0%Z, Action.make 0 (-5) 0 []);
                           (2%Z, Action.make 2 5 0 [])]
                          36000000 1 1 0 0 18000000).
  destruct (battery_state_of_charge_round_trip
              10 5 1 5 1 1 0 0 b (5 # 2) eq_refl) as (_ & Hsoc & _).
  destruct Hsoc as (soc & Hret & Hval); [discriminate|].
  exists b, soc. split; [reflexivity|]. split; [exact Hret|].
  rewrite Hval. reflexivity.
Defined.

(* ================================================================== *)
(** ** Battery: the query walks [0 .. len - 1] *)

Lemma feasible_loop_missing (b : Battery.t) (max_power min_power : Q)
    (idxs : list Z) :
  (exists k, In k idxs /\ Dict.mem (Battery.actions b) k = false) ->
  forall acc,
    Battery.feasible_loop idxs max_power min_power acc b = Raised KeyError b.
Proof.
  induction idxs as [|idx idxs IH]; intros (k & Hin & Hk) acc.
  - contradiction.
  - simpl. unfold bind at 1, get at 1.
    destruct (Dict.lookup (Battery.actions b) idx) as [a0|] eqn:Ea.
    + rewrite (bind_returned _ _ _ _ _ (getitem_returns _ _ _ b Ea)).
      assert (Hrest : exists k, In k idxs
                                /\ Dict.mem (Battery.actions b) k = false).
      { exists k. split; [|exact Hk].
        destruct Hin as [<-|Hin]; [|exact Hin].
        unfold Dict.mem in Hk. rewrite Ea in Hk. discriminate. }
      destruct (Qle_bool (Action.el_power a0 * 1000) max_power
                && Qle_bool min_power (Action.el_power a0 * 1000));
        apply IH; exact Hrest.
    + apply bind_raised, getitem_raises, Ea.
Qed.

(** X9.  The feasibility query looks the idxs [0 .. len - 1] up, so an
    action registered under any other fresh idx (negative, or beyond the
    next free one) makes every later query raise [KeyError]: the catalog
    accepts the action, but the idx [len] the query then asks for does
    not exist. *)
Theorem battery_query_requires_contiguous_idxs
    (b : Battery.t) (a : Action.t) (delta_time : Q) :
  Catalog.dense (Battery.actions b) ->
  (Action.idx a < 0 \/ Dict.len (Battery.actions b) < Action.idx a)%Z ->
  ~ Battery.charging_efficiency b == 0 ->
  ~ delta_time == 0 ->
  exists b',
    Inherited.add_action a b = Returned tt b'
    /\ Dict.lookup (Battery.actions b') (Action.idx a) = Some a
    /\ Battery.get_feasible_action_idxs delta_time b' = Raised KeyError b'.
Proof.
  intros Hdense Hidx Hc Hdt.
  assert (Hfresh : Dict.mem (Battery.actions b) (Action.idx a) = false).
  { apply (mem_false_iff _ _ _ (Hdense _)). lia. }
  unfold Inherited.add_action, Inherited.on_actions.
  rewrite add_action_new by exact Hfresh.
  eexists. split; [reflexivity|]. battery_fields.
  split; [rewrite lookup_set, Z.eqb_refl; reflexivity|].
  unfold Battery.get_feasible_action_idxs.
  unfold bind at 1, get at 1. battery_fields.
  erewrite bind_returned by (apply div_returns; exact Hc).
  erewrite bind_returned by (apply div_returns; exact Hdt).
  erewrite bind_returned by (apply div_returns; exact Hdt).
  apply feasible_loop_missing. battery_fields.
  exists (Dict.len (Battery.actions b)). split.
  - apply in_range. rewrite len_set_new by exact Hfresh.
    unfold Dict.len. lia.
  - rewrite mem_set. apply orb_false_iff. split.
    + apply Z.eqb_neq. unfold Dict.len in *. lia.
    + apply (mem_false_iff _ _ _ (Hdense _)). lia.
Qed.

(** The scenario battery with an extra action at idx 10. *)
Lemma battery_query_requires_contiguous_idxs_witness :
  exists b',
    Inherited.add_action (Action.make 10 1 0 [])
      (Battery.make [(1%Z, Action.make 1 0 0 []);
                     (0%Z, Action.make 0 (-5) 0 []);
                     (2%Z, Action.make 2 5 0 [])]
                    36000000 1 1 0 0 18000000)
    = Returned tt b'
    /\ Battery.get_feasible_action_idxs 3600 b' = Raised KeyError b'.
Proof.
  destruct (battery_query_requires_contiguous_idxs
              (Battery.make [(1%Z, Action.make 1 0 0 []);
                             (0%Z, Action.make 0 (-5) 0 []);
                             (2%Z, Action.make 2 5 0 [])]
                            36000000 1 1 0 0 18000000)
              (Action.make 10 1 0 []) 3600)
    as (b' & Hadd & _ & Hquery).
  - intro k. unfold Dict.mem, Dict.len. simpl.
    destruct (k =? 1)%Z eqn:E1; [apply Z.eqb_eq in E1; lia|].
    destruct (k =? 0)%Z eqn:E0; [apply Z.eqb_eq in E0; lia|].
    destruct (k =? 2)%Z eqn:E2; [apply Z.eqb_eq in E2; lia|].
    apply Z.eqb_neq in E1, E0, E2. split; [discriminate | lia].
  - right. reflexivity.
  - discriminate.
  - discriminate.
  - exists b'. split; assumption.
Defined.

(* ================================================================== *)
(** ** The queries never write *)

Lemma battery_feasible_loop_reads (b : Battery.t) (max_power min_power : Q)
    (idxs : list Z) :
  forall acc,
    final_state (Battery.feasible_loop idxs max_power min_power acc b) = b.
Proof.
  induction idxs as [|idx idxs IH]; intro acc; [reflexivity|].
  simpl. unfold bind at 1, get at 1. unfold bind, Dict.getitem.
  destruct (Dict.lookup (Battery.actions b) idx) as [a0|]; [|reflexivity].
  unfold ret.
  destruct (Qle_bool (Action.el_power a0 * 1000) max_power
            && Qle_bool min_power (Action.el_power a0 * 1000)); apply IH.
Qed.

Lemma plant_feasible_loop_reads (p : CHPPlant.t) (delta_time : Q)
    (idxs : list Z) :
  forall acc, final_state (CHPPlant.feasible_loop idxs delta_time acc p) = p.
Proof.
  induction idxs as [|idx idxs IH]; intro acc; [reflexivity|].
  simpl. unfold bind at 1, get at 1.
  destruct (idx =? CHPPlant.mode p)%Z.
  - unfold bind, Dict.getitem, Action.getattr.
    destruct (Dict.lookup (CHPPlant.actions p) idx) as [a0|]; [|reflexivity].
    unfold ret.
    destruct (Action.assoc (Action.extra a0) "max_staying_time")
      as [limit|]; [|reflexivity].
    match goal with
    | |- final_state ((if ?c then _ else _) p) = _ => destruct c
    end; apply IH.
  - unfold bind at 1, ret at 1. apply IH.
Qed.

Lemma tank_filter_loop_reads (h : HeatStorage.t) (function : Action.t -> Q)
    (action_map : Dict.t Action.t)
    (min_charge max_charge max_power min_power : Q) (idxs : list Z) :
  forall acc,
    final_state
      (HeatStorage.filter_loop function action_map idxs
         min_charge max_charge max_power min_power acc h) = h.
Proof.
  induction idxs as [|idx idxs IH]; intro acc; [reflexivity|].
  simpl. unfold bind at 1, get at 1. unfold bind, Dict.getitem.
  destruct (Dict.lookup action_map idx) as [a0|]; [|reflexivity].
  unfold ret.
  destruct (HeatStorage.keeps h min_charge max_charge max_power min_power
              (function a0)); apply IH.
Qed.

(** X10.  The three queries are read-only.  Whatever the battery, the
    plant, the storage and the arguments, and whether the call returns a
    result or raises, [Battery.get_feasible_action_idxs],
    [CHPPlant.get_feasible_action_idxs] and [HeatStorage.filter_actions]
    leave the object exactly as it was. *)
Theorem queries_are_read_only
    (b : Battery.t) (p : CHPPlant.t) (h : HeatStorage.t)
    (function : Action.t -> Q) (action_map : Dict.t Action.t)
    (delta_time min_soc max_soc : Q) :
  final_state (Battery.get_feasible_action_idxs delta_time b) = b
  /\ final_state (CHPPlant.get_feasible_action_idxs delta_time p) = p
  /\ final_state
       (HeatStorage.filter_actions function action_map delta_time
                                   min_soc max_soc h) = h.
Proof.
  split; [|split].
  - unfold Battery.get_feasible_action_idxs, div, bind, get, ret, raise.
    destruct (Qeq_bool (Battery.charging_efficiency b) 0); [reflexivity|].
    destruct (Qeq_bool delta_time 0); [reflexivity|].
    apply battery_feasible_loop_reads.
  - unfold CHPPlant.get_feasible_action_idxs, CHPPlant.current_action,
      Dict.getitem, Action.getattr, bind, get, ret, raise.
    destruct (Dict.lookup (CHPPlant.actions p) (CHPPlant.mode p)) as [a0|];
      [|reflexivity].
    destruct (Action.assoc (Action.extra a0) "min_staying_time")
      as [least|]; [|reflexivity].
    destruct (Py.value_lt_bool (Py.Num (CHPPlant.staying_time p)) least);
      [reflexivity|].
    apply plant_feasible_loop_reads.
  - unfold HeatStorage.filter_actions, div, bind, get, ret, raise.
    destruct (Qeq_bool (HeatStorage.charging_efficiency h) 0); [reflexivity|].
    destruct (Qeq_bool delta_time 0); [reflexivity|].
    apply tank_filter_loop_reads.
Qed.

(* ================================================================== *)
(** ** A tick of length zero *)

(** X11.  With [delta_time = 0] the band cannot be computed: the
    battery's feasibility query and the storage's [filter_actions] raise
    [ZeroDivisionError], and so does the storage's [state_transition]
    (when it converts the leftover to a power); none of the three writes
    anything before. *)
Theorem zero_length_tick_raises
    (b : Battery.t) (h : HeatStorage.t)
    (function : Action.t -> Q) (action_map : Dict.t Action.t)
    (delta_time min_soc max_soc : Q) (action_idx : option Z)
    (env : Interaction.t) :
  delta_time == 0 ->
  Battery.get_feasible_action_idxs delta_time b = Raised ZeroDivisionError b
  /\ HeatStorage.filter_actions function action_map delta_time
                                min_soc max_soc h
     = Raised ZeroDivisionError h
  /\ HeatStorage.state_transition delta_time action_idx (Some env) h
     = Raised ZeroDivisionError h.
Proof.
  intro Hz. apply Qeq_bool_iff in Hz as Hz'.
  split; [|split].
  - unfold Battery.get_feasible_action_idxs, div, bind, get, ret, raise.
    destruct (Qeq_bool (Battery.charging_efficiency b) 0); [reflexivity|].
    rewrite Hz'. reflexivity.
  - unfold HeatStorage.filter_actions, div, bind, get, ret, raise.
    destruct (Qeq_bool (HeatStorage.charging_efficiency h) 0); [reflexivity|].
    rewrite Hz'. reflexivity.
  - assert (E : - Interaction.th_power env * delta_time * 1000 == 0)
      by (rewrite Hz; ring).
    assert (E1 : Py.Qlt_bool 0 (- Interaction.th_power env * delta_time * 1000)
                 = false) by (apply Qlt_bool_false; lra).
    assert (E2 : Py.Qlt_bool (- Interaction.th_power env * delta_time * 1000) 0
                 = false) by (apply Qlt_bool_false; lra).
    unfold HeatStorage.state_transition, div, bind, get, ret, raise.
    rewrite E1, E2. cbn [fst snd]. rewrite Hz'. reflexivity.
Qed.

(** A tick of exactly 0 s on the scenario tank and an empty battery. *)
Lemma zero_length_tick_raises_witness :
  Battery.get_feasible_action_idxs 0 (Battery.make [] 0 1 1 0 0 0)
  = Raised ZeroDivisionError (Battery.make [] 0 1 1 0 0 0)
  /\ HeatStorage.state_transition 0 None (Some (Interaction.new 0 3))
                                  Scenario.tank
     = Raised ZeroDivisionError Scenario.tank.
Proof.
  destruct (zero_length_tick_raises
              (Battery.make [] 0 1 1 0 0 0) Scenario.tank Action.th_power
              Scenario.heater 0 0 1 None (Interaction.new 0 3))
    as (Hb & _ & Hh).
  - reflexivity.
  - split; assumption.
Defined.

(* ================================================================== *)
(** ** Heat storage: all or nothing, and within bounds *)

(** X12.  The storage's [state_transition] is atomic: for every storage
    and every argument, when the call raises (no interaction supplied, a
    zero efficiency, a zero tick, a relative loss of -2) the storage is
    exactly as it was before the call. *)
Theorem heat_storage_transition_is_atomic
    (h : HeatStorage.t) (delta_time : Q) (action_idx : option Z)
    (env : option Interaction.t) :
  match HeatStorage.state_transition delta_time action_idx env h with
  | Raised e h' =>
      h' = h
      /\ (e = AttributeError /\ env = None
          \/ e = ZeroDivisionError /\ env <> None)
  | Returned out h' => h' = HeatStorage.with_charge h (HeatStorage.charge h')
  end.
Proof.
  unfold HeatStorage.state_transition, div, bind, get, put, ret, raise.
  destruct env as [e|]; [|split; [reflexivity | left; split; reflexivity]].
  assert (Hz : forall h', h' = h ->
               h' = h /\ (ZeroDivisionError = AttributeError /\ Some e = None
                          \/ ZeroDivisionError = ZeroDivisionError
                             /\ Some e <> None)).
  { intros h' ->. split; [reflexivity|]. right. split; [reflexivity|].
    discriminate. }
  repeat match goal with
         | |- context [if ?c then _ else _] =>
             destruct c; cbn [fst snd]; try (apply Hz; reflexivity);
             try reflexivity
         end.
Qed.





(* ================================================================== *)
(** ** Heat storage: the filter keeps the order of the candidates *)

Lemma lookup_app {V} (d1 d2 : Dict.t V) (k : Z) :
  Dict.lookup (d1 ++ d2) k
  = match Dict.lookup d1 k with
    | Some v => Some v
    | None => Dict.lookup d2 k
    end.
Proof.
  induction d1 as [|[k0 v0] d1 IH]; simpl; [reflexivity|].
  destruct (k =? k0)%Z; [reflexivity | exact IH].
Qed.

Lemma lookup_not_in_keys {V} (d : Dict.t V) (k : Z) :
  ~ In k (Dict.keys d) -> Dict.lookup d k = None.
Proof.
  intro H. rewrite in_keys_mem in H. unfold Dict.mem in H.
  destruct (Dict.lookup d k); [exfalso; apply H; reflexivity | reflexivity].
Qed.

Lemma keys_filter_incl {V} (sel : Z * V -> bool) (d : Dict.t V) (k : Z) :
  In k (Dict.keys (List.filter sel d)) -> In k (Dict.keys d).
Proof.
  unfold Dict.keys. rewrite !in_map_iff.
  intros (kv & Hk & Hin). apply filter_In in Hin.
  exists kv. split; [exact Hk | apply Hin].
Qed.

Section HeatStorageFilterOrder.

Variable h : HeatStorage.t.
Variable function : Action.t -> Q.
Variable action_map : Dict.t Action.t.
Variables min_charge max_charge max_power min_power : Q.

Hypothesis distinct_keys : NoDup (Dict.keys action_map).

Local Abbreviation sel :=
  (fun kv : Z * Action.t =>
     HeatStorage.keeps h min_charge max_charge max_power min_power
                       (function (snd kv))).

Lemma filter_loop_in_order (rest : Dict.t Action.t) :
  forall done,
    action_map = done ++ rest ->
    HeatStorage.filter_loop function action_map (Dict.keys rest)
      min_charge max_charge max_power min_power (List.filter sel done) h
    = Returned (List.filter sel action_map) h.
Proof.
  induction rest as [|[k v] rest IH]; intros done Hsplit.
  - rewrite app_nil_r in Hsplit. subst done. reflexivity.
  - assert (Hnotin : ~ In k (Dict.keys done)).
    { pose proof distinct_keys as Hnd. rewrite Hsplit in Hnd.
      unfold Dict.keys in *. rewrite map_app in Hnd.
      apply NoDup_remove_2 in Hnd. intro Hin. apply Hnd.
      apply in_or_app. left. exact Hin. }
    assert (Hlook : Dict.lookup action_map k = Some v).
    { rewrite Hsplit, lookup_app, (lookup_not_in_keys _ _ Hnotin).
      simpl. rewrite Z.eqb_refl. reflexivity. }
    simpl. unfold bind at 1, get at 1.
    rewrite (bind_returned _ _ _ _ _ (getitem_returns _ _ _ h Hlook)).
    assert (Hnext : action_map = (done ++ [(k, v)]) ++ rest)
      by (rewrite <- app_assoc; exact Hsplit).
    specialize (IH _ Hnext). rewrite filter_app in IH. simpl in IH.
    destruct (HeatStorage.keeps h min_charge max_charge max_power min_power
                (function v)) eqn:Ek.
    + rewrite set_new_appends; [exact IH|].
      destruct (Dict.mem (List.filter sel done) k) eqn:Em; [|reflexivity].
      exfalso. apply Hnotin. apply in_keys_mem in Em.
      exact (keys_filter_incl _ _ _ Em).
    + rewrite app_nil_r in IH. exact IH.
Qed.

End HeatStorageFilterOrder.

(** X14.  [filter_actions] is a filter in the strict sense: for a
    candidate mapping (distinct keys, as in any dict), a positive charging
    efficiency and a tick of positive length, the result holds the
    surviving entries of the candidates unchanged and in the candidates'
    iteration order. *)
Theorem filter_actions_preserves_order
    (h : HeatStorage.t) (function : Action.t -> Q)
    (action_map : Dict.t Action.t) (delta_time min_soc max_soc : Q) :
  NoDup (Dict.keys action_map) ->
  0 < delta_time ->
  0 < HeatStorage.charging_efficiency h ->
  HeatStorage.filter_actions function action_map delta_time
                             min_soc max_soc h
  = Returned
      (List.filter
         (fun kv : Z * Action.t =>
            HeatStorage.keeps h
              (HeatStorage.capacity h * min_soc)
              (HeatStorage.capacity h * max_soc)
              (Tank.storable h / delta_time)
              (Tank.extractable h / delta_time)
              (function (snd kv)))
         action_map)
      h.
Proof.
  intros Hnd Hdt Hc. unfold HeatStorage.filter_actions.
  rewrite (bind_returned _ _ h h h) by reflexivity.
  erewrite bind_returned by (apply div_returns; lra).
  erewrite bind_returned by (apply div_returns; lra).
  erewrite bind_returned by (apply div_returns; lra).
  apply (filter_loop_in_order h function action_map _ _ _ _ Hnd
           action_map []).
  reflexivity.
Qed.

(** The scenario tank with a full-power heater that does not fit the
    band: only the two smaller actions are left, in their order. *)
Lemma filter_actions_preserves_order_witness :
  HeatStorage.filter_actions Action.th_power
    [(2%Z, Action.make 2 0 1 []); (0%Z, Action.make 0 0 0 []);
     (1%Z, Action.make 1 0 9 [])]
    3600 (1 # 5) (4 # 5) Scenario.tank
  = Returned [(2%Z, Action.make 2 0 1 []); (0%Z, Action.make 0 0 0 [])]
             Scenario.tank.
Proof.
  rewrite filter_actions_preserves_order.
  - reflexivity.
  - repeat constructor; simpl; intuition discriminate.
  - reflexivity.
  - reflexivity.
Defined.

(* ================================================================== *)
(** ** Heat storage: state of charge *)

(** X15.  A storage built with a capacity of [C] kWh and [c0] kWh of
    initial charge reports the state of charge [c0 / C], a fraction of
    the capacity, and after [set_state c] it reports [c / C]; both
    readings leave the storage as it is. *)
Theorem heat_storage_state_of_charge
    (C c0 eta_c eta_d r a c : Q) :
  ~ C == 0 ->
  let h := HeatStorage.init C c0 eta_c eta_d r a in
  (exists soc,
     HeatStorage.get_state_of_charge h = Returned soc h /\ soc == c0 / C)
  /\ (exists soc,
        (HeatStorage.set_state c ;;; HeatStorage.get_state_of_charge) h
        = Returned soc (HeatStorage.with_charge h (c * 1000 * 60 * 60))
        /\ soc == c / C).
Proof.
  intros HC h. subst h.
  assert (Hz : Qeq_bool (C * 1000 * 60 * 60) 0 = false)
    by (apply Qeq_bool_false; lra).
  unfold HeatStorage.get_state_of_charge, HeatStorage.set_state,
    HeatStorage.init, div, bind, get, put, ret, raise.
  tank_fields. rewrite Hz.
  split; eexists; (split; [reflexivity|]); field; exact HC.
Qed.

(** The scenario tank: 2 kWh of 10 kWh. *)
Lemma heat_storage_state_of_charge_witness :
  exists soc,
    HeatStorage.get_state_of_charge Scenario.tank
    = Returned soc Scenario.tank
    /\ soc == 1 # 5.
Proof.
  destruct (heat_storage_state_of_charge 10 2 1 1 0 0 0)
    as ((soc & Hrun & Hval) & _).
  - discriminate.
  - exists soc. split; [exact Hrun|]. rewrite Hval. reflexivity.
Defined.

(* ================================================================== *)
(** ** CHP plant: how far a tick moves a channel *)

Lemma max_keeps_first (a b : Q) : b <= a -> Py.max a b = a.
Proof.
  intro H. unfold Py.max. apply Qlt_bool_false in H. rewrite H. reflexivity.
Qed.

Lemma max_takes_second (a b : Q) : a < b -> Py.max a b = b.
Proof.
  intro H. unfold Py.max. apply Qlt_bool_true in H. rewrite H. reflexivity.
Qed.

Lemma min_keeps_first (a b : Q) : a <= b -> Py.min a b = a.
Proof.
  intro H. unfold Py.min. apply Qlt_bool_false in H. rewrite H. reflexivity.
Qed.

Lemma min_takes_second (a b : Q) : b < a -> Py.min a b = b.
Proof.
  intro H. unfold Py.min. apply Qlt_bool_true in H. rewrite H. reflexivity.
Qed.

Lemma stepped_up (target cur up down dt : Q) :
  target - cur < 0 ->
  Ramp.stepped target cur up down dt (Py.max target (cur + up * dt)).
Proof.
  intro H. split; [|split].
  - intros _. split; intro Hc.
    + apply max_keeps_first, Hc.
    + apply max_takes_second, Hc.
  - intro Hc. exfalso. lra.
  - intro Hc. exfalso. lra.
Qed.

Lemma stepped_down (target cur up down dt : Q) :
  0 < target - cur ->
  Ramp.stepped target cur up down dt (Py.min target (cur + down * dt)).
Proof.
  intro H. split; [|split].
  - intro Hc. exfalso. lra.
  - intros _. split; intro Hc.
    + apply min_keeps_first, Hc.
    + apply min_takes_second, Hc.
  - intro Hc. exfalso. lra.
Qed.

Lemma stepped_stay (target cur up down dt : Q) :
  0 <= target - cur -> target - cur <= 0 ->
  Ramp.stepped target cur up down dt cur.
Proof.
  intros H1 H2. split; [|split].
  - intro Hc. exfalso. lra.
  - intro Hc. exfalso. lra.
  - intros _. reflexivity.
Qed.

(** The trapezoid of the thermal channel, divided by the tick. *)
Lemma trapezoid_average (cur x t dt : Q) :
  0 < dt -> 0 <= t ->
  let total := Py.min dt t * (cur + x) / 2 + Py.max 0 (dt - t) * x in
  between cur (total / dt) x
  /\ (dt <= t -> total / dt == (cur + x) / 2).
Proof.
  intros Hdt Ht total. subst total. unfold Py.min, Py.max.
  destruct (Py.Qlt_bool t dt) eqn:E1;
    destruct (Py.Qlt_bool 0 (dt - t)) eqn:E2; reflect_cmp;
    try (exfalso; lra).
  - split; [|intro; exfalso; lra].
    assert (Hrest : 0 <= dt - t) by lra.
    destruct (Qlt_le_dec cur x) as [Hcx | Hcx]; [left | right].
    + assert (0 <= t * (x - cur)) by (apply Qmult_le_0_compat; lra).
      assert (0 <= (dt - t) * (x - cur)) by (apply Qmult_le_0_compat; lra).
      split.
      * apply Qle_shift_div_l; [exact Hdt|]. literal_div. nra.
      * apply Qle_shift_div_r; [exact Hdt|]. literal_div. nra.
    + assert (0 <= t * (cur - x)) by (apply Qmult_le_0_compat; lra).
      assert (0 <= (dt - t) * (cur - x)) by (apply Qmult_le_0_compat; lra).
      split.
      * apply Qle_shift_div_l; [exact Hdt|]. literal_div. nra.
      * apply Qle_shift_div_r; [exact Hdt|]. literal_div. nra.
  - assert (Emean : (dt * (cur + x) / 2 + 0 * x) / dt == (cur + x) / 2)
      by (field; lra).
    split; [|intros _; exact Emean].
    unfold between. rewrite Emean.
    destruct (Qlt_le_dec cur x); [left | right]; split; qlra.
Qed.

Section PlantChannels.

Variable p : CHPPlant.t.
Variable delta_time : Q.
Variable target : Action.t.

Hypothesis registered :
  Dict.lookup (CHPPlant.actions p) (CHPPlant.mode p) = Some target.
Hypothesis tick_positive : 0 < delta_time.
Hypothesis rates : Plant.rates_ok p.

Lemma ramp_electrical_steps :
  exists avg x,
    CHPPlant.ramp_electrical delta_time p
    = Returned avg (CHPPlant.with_el_power p x)
    /\ Ramp.stepped (Action.el_power target) (CHPPlant.el_power p)
         (CHPPlant.el_ramp_up_rate p) (CHPPlant.el_ramp_down_rate p)
         delta_time x
    /\ avg == x.
Proof.
  destruct rates as (Hup & Hdown & _ & _).
  assert (Havg : forall x, delta_time * x / delta_time == x).
  { intro x. field. lra. }
  pose proof (tick_nonzero delta_time tick_positive) as Ht.
  destruct p as [acts m st el th eu ed tu td]; plant_fields.
  assert (Heu : Qeq_bool eu 0 = false) by (apply Qeq_bool_false; lra).
  assert (Hed : Qeq_bool ed 0 = false) by (apply Qeq_bool_false; lra).
  unfold CHPPlant.ramp_electrical. plant_run. rewrite registered.
  destruct (Py.Qlt_bool (Action.el_power target - el) 0) eqn:E1;
    [| destruct (Py.Qlt_bool 0 (Action.el_power target - el)) eqn:E2];
    rewrite ?Heu, ?Hed, ?Ht; plant_fields; rewrite ?Ht;
    clear Heu Hed Ht; reflect_cmp;
    (eexists; eexists; split; [reflexivity|]; split; [|apply Havg]).
  - apply stepped_up, E1.
  - apply stepped_down, E2.
  - apply stepped_stay; assumption.
Qed.

Lemma ramp_thermal_steps :
  exists avg x,
    CHPPlant.ramp_thermal delta_time p
    = Returned avg (CHPPlant.with_th_power p x)
    /\ Ramp.stepped (Action.th_power target) (CHPPlant.th_power p)
         (CHPPlant.th_ramp_up_rate p) (CHPPlant.th_ramp_down_rate p)
         delta_time x
    /\ Ramp.averaged (Action.th_power target) (CHPPlant.th_power p)
         (CHPPlant.th_ramp_up_rate p) (CHPPlant.th_ramp_down_rate p)
         delta_time x avg.
Proof.
  destruct rates as (_ & _ & Hup & Hdown).
  pose proof (tick_nonzero delta_time tick_positive) as Ht.
  destruct p as [acts m st el th eu ed tu td]; plant_fields.
  assert (Htu : Qeq_bool tu 0 = false) by (apply Qeq_bool_false; lra).
  assert (Htd : Qeq_bool td 0 = false) by (apply Qeq_bool_false; lra).
  unfold CHPPlant.ramp_thermal. plant_run. rewrite registered.
  set (tth := Action.th_power target) in *.
  destruct (Py.Qlt_bool (tth - th) 0) eqn:E1;
    [| destruct (Py.Qlt_bool 0 (tth - th)) eqn:E2];
    rewrite ?Htu, ?Htd, ?Ht; plant_fields; rewrite ?Ht;
    clear Htu Htd Ht; reflect_cmp;
    (eexists; eexists; split; [reflexivity|]; split).
  - apply stepped_up, E1.
  - assert (Et : (tth - th) / tu * tu == tth - th) by (field; lra).
    set (t := (tth - th) / tu) in *.
    assert (Ht0 : 0 <= t) by nra.
    destruct (trapezoid_average th (Py.max tth (th + tu * delta_time))
                t delta_time tick_positive Ht0) as (Hb & Hm).
    split; [exact Hb|]. split; [|split]; intros; try (exfalso; lra).
    apply Hm. nra.
  - apply stepped_down, E2.
  - assert (Et : (tth - th) / td * td == tth - th) by (field; lra).
    set (t := (tth - th) / td) in *.
    assert (Ht0 : 0 <= t) by nra.
    destruct (trapezoid_average th (Py.min tth (th + td * delta_time))
                t delta_time tick_positive Ht0) as (Hb & Hm).
    split; [exact Hb|]. split; [|split]; intros; try (exfalso; lra).
    apply Hm. nra.
  - apply stepped_stay; assumption.
  - assert (Eavg : delta_time * th / delta_time == th) by (field; lra).
    split; [|split; [|split]]; intros; try (exfalso; lra).
    + unfold between. rewrite Eavg. left. split; lra.
    + exact Eavg.
Qed.

End PlantChannels.

Section PlantStepDetails.

Variable p : CHPPlant.t.
Variable delta_time : Q.
Variable action_idx : Z.
Variable env : option Interaction.t.
Variable target : Action.t.

Hypothesis registered :
  Dict.lookup (CHPPlant.actions p) action_idx = Some target.
Hypothesis tick_positive : 0 < delta_time.
Hypothesis rates : Plant.rates_ok p.

(** Everything a tick with a registered mode does. *)
Lemma state_transition_steps :
  exists out p',
    CHPPlant.state_transition delta_time action_idx env p = Returned out p'
    /\ Plant.same_config p p'
    /\ CHPPlant.mode p' = action_idx
    /\ CHPPlant.staying_time p'
       = (if (action_idx =? CHPPlant.mode p)%Z
          then CHPPlant.staying_time p else 0) + delta_time
    /\ Ramp.stepped (Action.el_power target) (CHPPlant.el_power p)
         (CHPPlant.el_ramp_up_rate p) (CHPPlant.el_ramp_down_rate p)
         delta_time (CHPPlant.el_power p')
    /\ Ramp.stepped (Action.th_power target) (CHPPlant.th_power p)
         (CHPPlant.th_ramp_up_rate p) (CHPPlant.th_ramp_down_rate p)
         delta_time (CHPPlant.th_power p')
    /\ Interaction.el_power out == CHPPlant.el_power p'
    /\ Ramp.averaged (Action.th_power target) (CHPPlant.th_power p)
         (CHPPlant.th_ramp_up_rate p) (CHPPlant.th_ramp_down_rate p)
         delta_time (CHPPlant.th_power p') (Interaction.th_power out).
Proof.
  unfold CHPPlant.state_transition.
  rewrite (bind_returned _ _ p p p) by reflexivity.
  destruct (adopt_mode_returns p action_idx) as (p1 & Hrun1 & Hp1).
  rewrite (bind_returned _ _ _ _ _ Hrun1).
  assert (Hmode1 : CHPPlant.mode p1 = action_idx).
  { subst p1. destruct (action_idx =? CHPPlant.mode p)%Z eqn:E.
    - apply Z.eqb_eq in E. congruence.
    - reflexivity. }
  assert (Hst1 : CHPPlant.staying_time p1
                 = if (action_idx =? CHPPlant.mode p)%Z
                   then CHPPlant.staying_time p else 0).
  { subst p1. destruct (action_idx =? CHPPlant.mode p)%Z; reflexivity. }
  assert (Hcfg1 : CHPPlant.actions p1 = CHPPlant.actions p
                  /\ CHPPlant.el_ramp_up_rate p1 = CHPPlant.el_ramp_up_rate p
                  /\ CHPPlant.el_ramp_down_rate p1
                     = CHPPlant.el_ramp_down_rate p
                  /\ CHPPlant.th_ramp_up_rate p1 = CHPPlant.th_ramp_up_rate p
                  /\ CHPPlant.th_ramp_down_rate p1
                     = CHPPlant.th_ramp_down_rate p
                  /\ CHPPlant.el_power p1 = CHPPlant.el_power p
                  /\ CHPPlant.th_power p1 = CHPPlant.th_power p).
  { subst p1. destruct (action_idx =? CHPPlant.mode p)%Z; repeat split. }
  destruct Hcfg1 as (Ha & Hr1 & Hr2 & Hr3 & Hr4 & Hel1 & Hth1).
  assert (Hreg1 : Dict.lookup (CHPPlant.actions p1) (CHPPlant.mode p1)
                  = Some target) by (rewrite Hmode1, Ha; exact registered).
  assert (Hrates1 : Plant.rates_ok p1).
  { unfold Plant.rates_ok. rewrite Hr1, Hr2, Hr3, Hr4. exact rates. }
  destruct (ramp_electrical_steps p1 delta_time target
              Hreg1 tick_positive Hrates1) as (el_avg & x & Hrun2 & Hsx & Hax).
  rewrite (bind_returned _ _ _ _ _ Hrun2).
  set (p2 := CHPPlant.with_el_power p1 x).
  assert (Hrates2 : Plant.rates_ok p2) by exact Hrates1.
  destruct (ramp_thermal_steps p2 delta_time target
              Hreg1 tick_positive Hrates2) as (th_avg & y & Hrun3 & Hsy & Hay).
  rewrite (bind_returned _ _ _ _ _ Hrun3).
  eexists. eexists. split; [reflexivity|].
  plant_run. unfold p2 in *. plant_fields.
  cbn [Interaction.el_power Interaction.th_power Interaction.new
       Interaction.extra].
  rewrite Hel1, Hr1, Hr2 in Hsx. rewrite Hth1, Hr3, Hr4 in Hsy, Hay.
  rewrite Hst1.
  split; [repeat split; assumption|].
  split; [exact Hmode1|]. split; [reflexivity|].
  split; [exact Hsx|]. split; [exact Hsy|]. split; [exact Hax|].
  exact Hay.
Qed.

End PlantStepDetails.

(** X16.  One tick of a plant with positive ramp magnitudes and a
    registered mode: the mode is adopted, [staying_time] restarts from 0
    on a change of mode and then grows by the tick, catalog and rates
    are kept, and each channel either lands exactly on the nominal power
    of the mode (when that is within one tick of ramping) or moves
    exactly [rate * delta_time] towards it. *)
Theorem chp_tick_lands_or_moves_by_rate
    (p : CHPPlant.t) (delta_time : Q) (action_idx : Z)
    (env : option Interaction.t) (target : Action.t) :
  Plant.rates_ok p ->
  0 < delta_time ->
  Dict.lookup (CHPPlant.actions p) action_idx = Some target ->
  exists out p',
    CHPPlant.state_transition delta_time action_idx env p = Returned out p'
    /\ Plant.same_config p p'
    /\ CHPPlant.mode p' = action_idx
    /\ CHPPlant.staying_time p'
       = (if (action_idx =? CHPPlant.mode p)%Z
          then CHPPlant.staying_time p else 0) + delta_time
    /\ Ramp.stepped (Action.el_power target) (CHPPlant.el_power p)
         (CHPPlant.el_ramp_up_rate p) (CHPPlant.el_ramp_down_rate p)
         delta_time (CHPPlant.el_power p')
    /\ Ramp.stepped (Action.th_power target) (CHPPlant.th_power p)
         (CHPPlant.th_ramp_up_rate p) (CHPPlant.th_ramp_down_rate p)
         delta_time (CHPPlant.th_power p').
Proof.
  intros Hrates Hdt Hreg.
  destruct (state_transition_steps p delta_time action_idx env target
              Hreg Hdt Hrates)
    as (out & p' & Hrun & Hcfg & Hmode & Hst & Hel & Hth & _).
  exists out, p'. repeat (split; [assumption|]). assumption.
Qed.

(** The scenario plant switched to full: 5 s at 1 kW/s. *)
Lemma chp_tick_lands_or_moves_by_rate_witness :
  exists out p',
    CHPPlant.state_transition 5 Scenario.full_idx None
      (CHPPlant.make (Scenario.modes Py.Inf) Scenario.idle_idx
                     0 0 0 (- (1)) 1 (- (1)) 1)
    = Returned out p'
    /\ CHPPlant.el_power p' = 0 + 1 * 5
    /\ CHPPlant.staying_time p' = 0 + 5.
Proof.
  destruct (chp_tick_lands_or_moves_by_rate
              (CHPPlant.make (Scenario.modes Py.Inf) Scenario.idle_idx
                             0 0 0 (- (1)) 1 (- (1)) 1)
              5 Scenario.full_idx None
              (Action.make Scenario.full_idx 10 20
                           (Scenario.staying 600 Py.Inf)))
    as (out & p' & Hrun & _ & _ & Hst & (_ & Hel & _) & _).
  - repeat split.
  - reflexivity.
  - reflexivity.
  - exists out, p'. split; [exact Hrun|]. split; [|exact Hst].
    apply Hel; reflexivity.
Defined.



(* ================================================================== *)
(** ** CHP plant: the ramp reaches its target *)







(* ================================================================== *)
(** ** CHP plant: at the nominal power *)

Section PlantAtTarget.

Variable p : CHPPlant.t.
Variable delta_time : Q.
Variable target : Action.t.

Hypothesis registered :
  Dict.lookup (CHPPlant.actions p) (CHPPlant.mode p) = Some target.
Hypothesis tick_nonzero' : ~ delta_time == 0.



End PlantAtTarget.






(** X21.  [set_state] with a mode that is not in the catalog raises
    [KeyError] after it has written mode and staying time: the powers
    are the old ones, and the plant is left unusable, as the feasibility
    query on it raises [KeyError] as well. *)
Theorem chp_set_state_unregistered
    (p : CHPPlant.t) (m : Z) (st delta_time : Q) :
  Dict.lookup (CHPPlant.actions p) m = None ->
  let out := CHPPlant.set_state m st p in
  raised out = Some KeyError
  /\ CHPPlant.mode (final_state out) = m
  /\ CHPPlant.staying_time (final_state out) = st
  /\ CHPPlant.el_power (final_state out) = CHPPlant.el_power p
  /\ CHPPlant.th_power (final_state out) = CHPPlant.th_power p
  /\ Plant.same_config p (final_state out)
  /\ CHPPlant.get_feasible_action_idxs delta_time (final_state out)
     = Raised KeyError (final_state out).
Proof.
  intros Hmiss out. subst out.
  unfold CHPPlant.set_state. plant_run. rewrite Hmiss.
  cbn [raised final_state]. plant_fields.
  repeat (split; [reflexivity|]).
  split; [repeat split|].
  unfold CHPPlant.get_feasible_action_idxs. plant_run. rewrite Hmiss.
  reflexivity.
Qed.

(** The scenario plant set to mode 7. *)
Lemma chp_set_state_unregistered_witness :
  raised (CHPPlant.set_state 7 0
            (CHPPlant.make (Scenario.modes Py.Inf) Scenario.idle_idx
                           100 0 0 (- (1)) 1 (- (1)) 1))
  = Some KeyError.
Proof.
  apply (chp_set_state_unregistered
           (CHPPlant.make (Scenario.modes Py.Inf) Scenario.idle_idx
                          100 0 0 (- (1)) 1 (- (1)) 1) 7 0 1).
  reflexivity.
Defined.

(* ================================================================== *)
(** ** CHP plant: the dwell time across a tick *)

(** X22.  After a switch the plant is locked in: when a tick of
    positive length switches to a registered mode whose
    [min_staying_time] is longer than that tick, the next feasibility
    query, for any tick length, offers that mode and nothing else. *)
Theorem chp_switch_locks_mode
    (p : CHPPlant.t) (delta_time next_delta_time : Q) (action_idx : Z)
    (env : option Interaction.t) (target : Action.t) (least : Q) :
  Plant.rates_ok p ->
  0 < delta_time ->
  Dict.lookup (CHPPlant.actions p) action_idx = Some target ->
  Action.assoc (Action.extra target) "min_staying_time"
  = Some (Py.Num least) ->
  action_idx <> CHPPlant.mode p ->
  delta_time < least ->
  exists out p',
    CHPPlant.state_transition delta_time action_idx env p = Returned out p'
    /\ CHPPlant.get_feasible_action_idxs next_delta_time p'
       = Returned [action_idx] p'.
Proof.
  intros Hrates Hdt Hreg Hmin Hswitch Hshort.
  destruct (state_transition_steps p delta_time action_idx env target
              Hreg Hdt Hrates)
    as (out & p' & Hrun & (Ha & _) & Hmode & Hst & _).
  exists out, p'. split; [exact Hrun|].
  apply Z.eqb_neq in Hswitch. rewrite Hswitch in Hst.
  rewrite <- Hmode at 1.
  apply (feasible_before_min_staying_time p' next_delta_time target
           (Py.Num least)).
  - rewrite Hmode, Ha. exact Hreg.
  - exact Hmin.
  - rewrite Hst. unfold Py.value_lt_bool, Py.value_le_bool.
    apply negb_true_iff, Qle_bool_false. lra.
Qed.

(** The scenario plant switched to full (at least 600 s) for 5 s. *)
Lemma chp_switch_locks_mode_witness :
  exists out p',
    CHPPlant.state_transition 5 Scenario.full_idx None
      (CHPPlant.make (Scenario.modes Py.Inf) Scenario.idle_idx
                     0 0 0 (- (1)) 1 (- (1)) 1)
    = Returned out p'
    /\ CHPPlant.get_feasible_action_idxs 5 p'
       = Returned [Scenario.full_idx] p'.
Proof.
  apply (chp_switch_locks_mode
           (CHPPlant.make (Scenario.modes Py.Inf) Scenario.idle_idx
                          0 0 0 (- (1)) 1 (- (1)) 1)
           5 5 Scenario.full_idx None
           (Action.make Scenario.full_idx 10 20
                        (Scenario.staying 600 Py.Inf)) 600).
  - repeat split.
  - reflexivity.
  - reflexivity.
  - reflexivity.
  - discriminate.
  - reflexivity.
Defined.

(* ================================================================== *)
(** ** CHP plant: when the feasibility query raises *)

Lemma feasible_loop_missing_limit (p : CHPPlant.t) (delta_time : Q)
    (a : Action.t) (idxs : list Z) :
  Dict.lookup (CHPPlant.actions p) (CHPPlant.mode p) = Some a ->
  Action.assoc (Action.extra a) "max_staying_time" = None ->
  In (CHPPlant.mode p) idxs ->
  forall acc,
    CHPPlant.feasible_loop idxs delta_time acc p = Raised AttributeError p.
Proof.
  intros Ha Hmax. induction idxs as [|idx idxs IH]; intros Hin acc.
  - contradiction.
  - simpl. unfold bind at 1, get at 1.
    destruct (idx =? CHPPlant.mode p)%Z eqn:E.
    + apply Z.eqb_eq in E. subst idx.
      unfold bind, Dict.getitem, Action.getattr. rewrite Ha. unfold ret.
      rewrite Hmax. reflexivity.
    + unfold bind at 1, ret at 1. apply IH.
      apply Z.eqb_neq in E. destruct Hin as [Hin|Hin]; [congruence | exact Hin].
Qed.

(** X23.  The outcomes of the plant's feasibility query.  It raises
    [KeyError] when the current mode is not in the catalog and
    [AttributeError] when the current mode's action has no
    [min_staying_time], or has no [max_staying_time] once the minimum
    has passed; otherwise it returns: the current mode alone before the
    minimum has passed, every key of the catalog in iteration order
    afterwards. *)
Theorem chp_feasible_outcomes (p : CHPPlant.t) (delta_time : Q) :
  CHPPlant.get_feasible_action_idxs delta_time p
  = match Dict.lookup (CHPPlant.actions p) (CHPPlant.mode p) with
    | None => Raised KeyError p
    | Some a =>
        match Action.assoc (Action.extra a) "min_staying_time" with
        | None => Raised AttributeError p
        | Some least =>
            if Py.value_lt_bool (Py.Num (CHPPlant.staying_time p)) least
            then Returned [CHPPlant.mode p] p
            else
              match Action.assoc (Action.extra a) "max_staying_time" with
              | None => Raised AttributeError p
              | Some _ => Returned (Dict.keys (CHPPlant.actions p)) p
              end
        end
    end.
Proof.
  destruct (Dict.lookup (CHPPlant.actions p) (CHPPlant.mode p))
    as [a|] eqn:Ha.
  - destruct (Action.assoc (Action.extra a) "min_staying_time")
      as [least|] eqn:Hmin.
    + destruct (Py.value_lt_bool (Py.Num (CHPPlant.staying_time p)) least)
        eqn:Hlt.
      * exact (feasible_before_min_staying_time p delta_time a least
                 Ha Hmin Hlt).
      * destruct (Action.assoc (Action.extra a) "max_staying_time")
          as [limit|] eqn:Hmax.
        -- exact (feasible_after_min_staying_time p delta_time a least limit
                    Ha Hmin Hmax Hlt).
        -- unfold CHPPlant.get_feasible_action_idxs. plant_run.
           unfold Action.getattr. rewrite Ha, Hmin. unfold ret.
           rewrite Hlt.
           apply feasible_loop_missing_limit with (a := a);
             [exact Ha | exact Hmax |].
           apply in_keys_mem, mem_lookup. exists a. exact Ha.
    + unfold CHPPlant.get_feasible_action_idxs. plant_run.
      unfold Action.getattr. rewrite Ha, Hmin. reflexivity.
  - unfold CHPPlant.get_feasible_action_idxs. plant_run.
    rewrite Ha. reflexivity.
Qed.

(* ================================================================== *)
(** ** CHP plant: the constructor *)

